(** * nextstrain.org: sources, resources and subresources

    A shallow embedding of [src/sources.js] (and of the later
    [src/sources/fetch.js], which redefines the URL-defined classes) together
    with the properties of the resolution model: access control, existence
    checks, alias completion, construction invariants, group information and
    the GitHub listings.

    Conventions of the embedding:
    - a JavaScript exception is a value [Err e] of [result];
    - an [async] method is a computation in the monad [M], which threads the
      list of HTTP requests issued and the lines logged by [utils.warn], and
      reads the answers of the network from an oracle;
    - plain JavaScript objects used as dictionaries are [gmap]s over their own
      string keys (properties inherited from [Object.prototype] are not
      modelled);
    - arguments have the types the code expects of them: path segments,
      names and cache entries are strings, and the branch promises of a
      community source have settled. *)

From Stdlib Require Import ZArith Ascii.
From stdpp Require Import gmap strings list fin_maps.

Local Open Scope Z_scope.
Local Open Scope nat_scope.

Local Set Warnings "-register-all".

(** ** The pieces of the JavaScript standard library the code uses *)

Module JS.

(** [Array.prototype.join] on an array of strings. *)
Fixpoint join (sep : string) (parts : list string) : string :=
  match parts with
  | [] => ""
  | p :: rest =>
      match rest with
      | [] => p
      | _ :: _ => p +:+ sep +:+ join sep rest
      end
  end.

(** [Array.prototype.includes] on an array of strings. *)
Definition includes (xs : list string) (x : string) : bool :=
  existsb (String.eqb x) xs.

(** [String.prototype.startsWith]. *)
Definition startsWith (s pre : string) : bool := String.prefix pre s.

(** The part of [s] from position [n] on. *)
Definition drop (n : nat) (s : string) : string :=
  String.substring n (String.length s - n) s.

(** [String.prototype.endsWith]. *)
Definition endsWith (s suf : string) : bool :=
  let n := String.length s in
  let m := String.length suf in
  (m <=? n) && String.eqb (drop (n - m) s) suf.

(** [s.replace(/suf$/, "")] for a literal [suf]. *)
Definition stripSuffix (suf s : string) : string :=
  if endsWith s suf
  then String.substring 0 (String.length s - String.length suf) s
  else s.

(** [s.replace(/^pre/, "")] for a literal [pre]. *)
Definition stripPrefix (pre s : string) : string :=
  if startsWith s pre then drop (String.length pre) s else s.

(** [s.replace(pat, "")] with a string pattern: only the first occurrence
    is removed. *)
Fixpoint removeFirst (pat s : string) : string :=
  if String.prefix pat s then drop (String.length pat) s
  else match s with
       | EmptyString => EmptyString
       | String c s' => String c (removeFirst pat s')
       end.

(** [s.split(c)] for a one-character separator. *)
Fixpoint split (c : ascii) (s : string) : list string :=
  match s with
  | EmptyString => [""]
  | String a s' =>
      if Ascii.eqb a c then "" :: split c s'
      else match split c s' with
           | [] => [String a ""]
           | h :: t => String a h :: t
           end
  end.

(** Truthiness of a string: every string but the empty one. *)
Definition truthy (s : string) : bool := negb (String.eqb s "").

End JS.

(** ** Exceptions and results *)

Inductive Error :=
| NoResourcePathError
| NotFound
| TypeError (message : string)
| GenericError (message : string).

Inductive result (A : Type) :=
| Ok (a : A)
| Err (e : Error).
Arguments Ok {A} a.
Arguments Err {A} e.

(** [err.message].  [NotFound] is built without a message and carries the
    default of [http-errors]; [NoResourcePathError] comes from [./exceptions],
    and no method modelled here reads its message. *)
Definition errMessage (e : Error) : string :=
  match e with
  | NoResourcePathError => ""
  | NotFound => "Not Found"
  | TypeError m => m
  | GenericError m => m
  end.

(** ** Sources *)

(** A Nextstrain group class: its [_name] and, for the few groups whose bucket
    is named differently, the overriding [bucket]. *)
Record Group := {
  group_name : string;
  group_bucket : option string
}.

(** The state a [CommunitySource] instance holds once its constructor has
    run and its branch promises have settled. *)
Record Community := {
  owner : string;
  repoName : string;
  branch : option string;
  branchExplicitlyDefined : bool;
  defaultBranch : option string
}.

(** A possibly undefined string inside a template literal. *)
Definition template (s : option string) : string := default "undefined" s.

Inductive Source :=
| CoreSource
| CoreStagingSource
| CommunitySource (c : Community)
| UrlDefinedSource (authority : string)
| PublicGroupSource (g : Group)
| PrivateGroupSource (g : Group).

(** [get name()], that is [this.constructor._name]. *)
Definition name (s : Source) : string :=
  match s with
  | CoreSource => "core"
  | CoreStagingSource => "staging"
  | CommunitySource _ => "community"
  | UrlDefinedSource _ => "fetch"
  | PublicGroupSource g => group_name g
  | PrivateGroupSource g => group_name g
  end.

Definition isGroup (s : Source) : bool :=
  match s with
  | PublicGroupSource _ | PrivateGroupSource _ => true
  | _ => false
  end.

(** [get bucket()] of the S3 sources. *)
Definition bucket (g : Group) : string :=
  match group_bucket g with
  | Some b => b
  | None => "nextstrain-" +:+ group_name g
  end.

(** The group classes of the registry. *)
Definition group (n : string) : Group :=
  {| group_name := n; group_bucket := None |}.
Definition groupIn (n b : string) : Group :=
  {| group_name := n; group_bucket := Some b |}.

Definition publicGroups : list Group :=
  [ group "blab"; group "seattleflu"; group "nextspain"; group "swiss";
    group "cog-uk"; group "ngs-sa"; group "ecdc";
    group "illinois-gagnon-public"; group "neherlab"; group "spheres";
    group "niph"; group "epicovigal"; group "waphl";
    groupIn "ViennaRNA" "nextstrain-viennarna";
    groupIn "SC2ZamPub" "nextstrain-sc2zampub";
    group "nebraska-dhhs"; groupIn "ncovHK" "nextstrain-ncovhk" ].

Definition privateGroups : list Group :=
  [ group "blab-private"; group "nz-covid19-private";
    group "allwales-private"; group "illinois-gagnon-private";
    group "grubaughlab"; groupIn "inrb-drc" "nextstrain-inrb";
    group "ilri"; group "pigie"; groupIn "SC2Zam" "nextstrain-sc2zam";
    group "wallaulab"; group "nextflu-private"; group "databiomics" ].

(** *** Access control *)

(** The principal handed to [visibleToUser]: [user.groups] may be missing. *)
Record User := { groups : option (list string) }.

(** [static visibleToUser(user)] of [Source]: everything is visible. *)
Definition Source_visibleToUser (user : option User) : bool := true.

(** [static visibleToUser(user)] of [PrivateGroupSource]:
    [!!user && !!user.groups && user.groups.includes(this._name)]. *)
Definition PrivateGroupSource_visibleToUser
    (_name : string) (user : option User) : bool :=
  match user with
  | None => false
  | Some u =>
      match groups u with
      | None => false
      | Some gs => JS.includes gs _name
      end
  end.

(** The instance method delegates to the static method of the instance's
    class. *)
Definition visibleToUser (s : Source) (user : option User) : bool :=
  match s with
  | PrivateGroupSource g => PrivateGroupSource_visibleToUser (group_name g) user
  | _ => Source_visibleToUser user
  end.

(** ** Resources *)

Inductive ResourceClass :=
| Dataset
| Narrative
| CommunityDataset
| CommunityNarrative
| UrlDefinedDataset
| UrlDefinedNarrative.

Record Resource := {
  class : ResourceClass;
  source : Source;
  pathParts : list string
}.

(** [this.source.repoName] inside a template string: a source that is not a
    community source has no such property. *)
Definition source_repoName (s : Source) : string :=
  match s with
  | CommunitySource c => repoName c
  | _ => "undefined"
  end.

(** [get baseParts()], as each class defines or inherits it. *)
Definition baseParts (r : Resource) : list string :=
  match class r with
  | CommunityDataset =>
      ("auspice/" +:+ source_repoName (source r)) :: pathParts r
  | CommunityNarrative =>
      ("narratives/" +:+ source_repoName (source r)) :: pathParts r
  | _ => pathParts r
  end.

(** [get baseName()]. *)
Definition baseName (r : Resource) : string :=
  match class r with
  | UrlDefinedDataset | UrlDefinedNarrative => JS.join "/" (baseParts r)
  | _ => JS.join "_" (baseParts r)
  end.

(** The constructor of [Resource], which every class inherits. *)
Definition new_Resource
    (cl : ResourceClass) (src : Source) (parts : list string) : result Resource :=
  let this := {| class := cl; source := src; pathParts := parts |} in
  if Nat.eqb (length (baseParts this)) 0
  then Err NoResourcePathError
  else Ok this.

Definition isDatasetClass (cl : ResourceClass) : bool :=
  match cl with
  | Dataset | CommunityDataset | UrlDefinedDataset => true
  | _ => false
  end.

(** [source.dataset(pathParts)] and [source.narrative(pathParts)]. *)
Definition dataset (s : Source) (parts : list string) : result Resource :=
  match s with
  | CommunitySource _ => new_Resource CommunityDataset s parts
  | UrlDefinedSource _ => new_Resource UrlDefinedDataset s parts
  | _ => new_Resource Dataset s parts
  end.

Definition narrative (s : Source) (parts : list string) : result Resource :=
  match s with
  | CommunitySource _ => new_Resource CommunityNarrative s parts
  | UrlDefinedSource _ => new_Resource UrlDefinedNarrative s parts
  | _ => new_Resource Narrative s parts
  end.

(** [get isRequestValidWithoutDataset()]. *)
Definition isRequestValidWithoutDataset (r : Resource) : bool :=
  match class r with
  | CommunityDataset => Nat.eqb (length (pathParts r)) 0
  | _ => false
  end.

(** ** Subresources *)

Inductive SubresourceClass :=
| DatasetSubresource
| NarrativeSubresource
| UrlDefinedDatasetSubresource
| UrlDefinedNarrativeSubresource.

(** [static validTypes]. *)
Definition validTypes (sc : SubresourceClass) : list string :=
  match sc with
  | DatasetSubresource | UrlDefinedDatasetSubresource =>
      ["main"; "root-sequence"; "tip-frequencies"; "meta"; "tree"]
  | NarrativeSubresource | UrlDefinedNarrativeSubresource => ["md"]
  end.

Record Subresource := {
  subclass : SubresourceClass;
  resource : Resource;
  type : string
}.

(** The constructor of [Subresource]; the parent is a [Resource] by typing. *)
Definition new_Subresource
    (sc : SubresourceClass) (r : Resource) (ty : string) : result Subresource :=
  if negb (JS.includes (validTypes sc) ty)
  then Err (GenericError ("invalid Subresource type: " +:+ ty))
  else Ok {| subclass := sc; resource := r; type := ty |}.

(** [resource.subresource(type)], dispatched on the class of the resource. *)
Definition subresource (r : Resource) (ty : string) : result Subresource :=
  match class r with
  | Dataset | CommunityDataset => new_Subresource DatasetSubresource r ty
  | UrlDefinedDataset => new_Subresource UrlDefinedDatasetSubresource r ty
  | Narrative | CommunityNarrative => new_Subresource NarrativeSubresource r ty
  | UrlDefinedNarrative => new_Subresource UrlDefinedNarrativeSubresource r ty
  end.

(** [get baseName()] of a subresource. *)
Definition Subresource_baseName (s : Subresource) : string :=
  let ty := type s in
  let bn := baseName (resource s) in
  match subclass s with
  | DatasetSubresource =>
      if String.eqb ty "main" then bn +:+ ".json"
      else bn +:+ "_" +:+ ty +:+ ".json"
  | NarrativeSubresource => bn +:+ ".md"
  | UrlDefinedDatasetSubresource =>
      if String.eqb ty "main" then bn
      else if JS.endsWith bn ".json"
           then JS.stripSuffix ".json" bn +:+ "_" +:+ ty +:+ ".json"
           else bn +:+ "_" +:+ ty
  | UrlDefinedNarrativeSubresource => bn
  end.

(** ** The outside world and the effects of asynchronous methods *)

Inductive Method := GET | HEAD.

Record Request := {
  req_url : string;
  req_method : Method
}.

(** One entry of a GitHub contents listing. *)
Record ContentsEntry := {
  entry_name : string;
  entry_type : string
}.

(** The JSON bodies the code reads from the GitHub API: a contents listing
    (an array) or the description of a repository (an object). *)
Inductive Json :=
| JListing (files : list ContentsEntry)
| JRepository (default_branch : option string).

(** What the code reads of a response: its status and the outcome of
    [response.json()] ([None] when the body does not parse). *)
Record Response := {
  status : Z;
  json : option Json
}.

(** A JavaScript value as YAML front matter can hold it (numbers are
    restricted to integers). *)
Inductive JSValue :=
| VUndefined
| VNull
| VBool (b : bool)
| VNumber (n : Z)
| VString (s : string)
| VArray (items : list JSValue)
| VObject.

Record FrontMatter := {
  fm_title : JSValue;
  fm_byline : JSValue;
  fm_website : JSValue;
  fm_showDatasets : JSValue;
  fm_showNarratives : JSValue;
  fm_content : string
}.

Record S3Object := {
  Body : string;
  ContentEncoding : option string
}.

(** The collaborators of the module: the WHATWG [URL] constructor, the AWS
    SDK, [zlib], [yaml-front-matter], [query-string], the [utils] module and
    the network behind [fetch]. *)
Record World := {
  URL_toString : string -> string -> string;
  getSignedUrl : string -> string -> string -> string;
  queryString_ref : option string -> string;
  fetch_response : Request -> result Response;
  (* the pages [eachPage] delivers for a bucket: keys of a page, or an error *)
  listObjectsV2 : string -> list (result (list string));
  getObject : string -> string -> result S3Object;
  gunzipSync : string -> result string;
  loadFront : string -> result FrontMatter;
  getDatasetsFromListOfFilenames : list string -> list string;
  responseDetails : Response -> string
}.

(** What a computation leaves behind: the requests it issued and the lines
    it logged, oldest first. *)
Record Effects := {
  requests : list Request;
  warnings : list (list string)
}.

Definition noEffects : Effects := {| requests := []; warnings := [] |}.

Definition M (A : Type) : Type := World -> Effects -> result A * Effects.

Definition ret {A} (a : A) : M A := fun _ e => (Ok a, e).

Definition throw {A} (err : Error) : M A := fun _ e => (Err err, e).

Definition bind {A B} (m : M A) (k : A -> M B) : M B :=
  fun w e =>
    match m w e with
    | (Ok a, e') => k a w e'
    | (Err err, e') => (Err err, e')
    end.

Notation "'let*' x ':=' m 'in' k" := (bind m (fun x => k))
  (at level 10, x name, m at level 100, k at level 200).

(** A synchronous computation that may throw. *)
Definition lift {A} (r : result A) : M A := fun _ e => (r, e).

(** Reading a collaborator. *)
Definition ask {A} (f : World -> A) : M A := fun w e => (Ok (f w), e).

(** [try { body } catch (err) { handler }]. *)
Definition tryCatch {A} (body : M A) (handler : Error -> M A) : M A :=
  fun w e =>
    match body w e with
    | (Ok a, e') => (Ok a, e')
    | (Err err, e') => handler err w e'
    end.

(** [fetch(url, {method})]: the request is issued, then answered. *)
Definition fetch (u : string) (method : Method) : M Response :=
  fun w e =>
    let rq := {| req_url := u; req_method := method |} in
    (fetch_response w rq,
     {| requests := requests e ++ [rq]; warnings := warnings e |}).

(** [utils.warn(...args)]. *)
Definition warn (args : list string) : M unit :=
  fun _ e =>
    (Ok tt, {| requests := requests e; warnings := warnings e ++ [args] |}).

(** [Promise.all] of two promises that are both already running: the second
    computation leaves its effects whether or not the first one fails, and a
    failure of either rejects the whole. *)
Definition promiseAll2 {A B} (p : M A) (q : M B) : M (A * B) :=
  fun w e =>
    let '(ra, e1) := p w e in
    let '(rb, e2) := q w e1 in
    match ra, rb with
    | Ok a, Ok b => (Ok (a, b), e2)
    | Err err, _ => (Err err, e2)
    | Ok _, Err err => (Err err, e2)
    end.

(** Running a computation from a state without effects. *)
Definition run {A} (w : World) (m : M A) : result A * Effects := m w noEffects.

(** *** URLs *)

(** [get repo()] of the GitHub-hosted sources. *)
Definition repo (s : Source) : string :=
  match s with
  | CommunitySource c => owner c +:+ "/" +:+ repoName c
  | _ => "nextstrain/narratives"
  end.

(** [get branch()], once settled. *)
Definition source_branch (s : Source) : option string :=
  match s with
  | CoreStagingSource => Some "staging"
  | CommunitySource c => branch c
  | _ => Some "master"
  end.

(** [async baseUrl()]. *)
Definition baseUrl (s : Source) : string :=
  match s with
  | CoreSource => "http://data.nextstrain.org/"
  | CoreStagingSource => "http://staging.nextstrain.org/"
  | CommunitySource _ =>
      "https://github.com/" +:+ repo s +:+ "/raw/"
        +:+ template (source_branch s) +:+ "/"
  | UrlDefinedSource authority => "https://" +:+ authority
  | PublicGroupSource g | PrivateGroupSource g =>
      "https://" +:+ bucket g +:+ ".s3.amazonaws.com"
  end.

(** [async urlFor(path, method)]. *)
Definition urlFor (s : Source) (path : string) (method : Method) : M string :=
  match s with
  | CoreSource | CoreStagingSource =>
      let base :=
        if JS.endsWith path ".md"
        then "https://raw.githubusercontent.com/" +:+ repo s +:+ "/"
               +:+ template (source_branch s) +:+ "/"
        else baseUrl s in
      ask (fun w => URL_toString w path base)
  | PrivateGroupSource g =>
      let operation :=
        match method with HEAD => "headObject" | GET => "getObject" end in
      ask (fun w => getSignedUrl w operation (bucket g) path)
  | _ => ask (fun w => URL_toString w path (baseUrl s))
  end.

(** [async url(method)] of a subresource. *)
Definition url (s : Subresource) (method : Method) : M string :=
  urlFor (source (resource s)) (Subresource_baseName s) method.

(** ** Existence checks *)

(** The helper [_exists] of [Dataset.exists] and [Narrative.exists]: a HEAD
    request for one subresource, true when its status is 200. *)
Definition _exists (this : Resource) (ty : string) : M bool :=
  let* sub := lift (subresource this ty) in
  let* u := url sub HEAD in
  let* response := fetch u HEAD in
  ret (Z.eqb (status response) 200).

(** The helper [all] of [Dataset.exists] at its two arguments. *)
Definition all (p q : M bool) : M bool :=
  let* xs := promiseAll2 p q in
  ret (forallb (fun x => x) [fst xs; snd xs]).

(** [Dataset.exists()]. *)
Definition Dataset_exists (this : Resource) : M bool :=
  let* main := _exists this "main" in
  if main then ret true
  else
    let* both := all (_exists this "meta") (_exists this "tree") in
    ret (both || false).

(** [Narrative.exists()]. *)
Definition Narrative_exists (this : Resource) : M bool :=
  let* md := _exists this "md" in
  ret (md || false).

(** [resource.exists()] in [sources.js]: no class overrides the method it
    inherits from [Dataset] or [Narrative]. *)
Definition exists_ (this : Resource) : M bool :=
  if isDatasetClass (class this) then Dataset_exists this
  else Narrative_exists this.

(** The URL-defined classes as [sources/fetch.js] defines them: both override
    [exists()] and assume existence. *)
Module FetchJs.

Definition UrlDefinedDataset_exists (this : Resource) : M bool := ret true.

Definition UrlDefinedNarrative_exists (this : Resource) : M bool := ret true.

Definition exists_ (this : Resource) : M bool :=
  match class this with
  | UrlDefinedDataset => UrlDefinedDataset_exists this
  | UrlDefinedNarrative => UrlDefinedNarrative_exists this
  | Dataset | CommunityDataset => Dataset_exists this
  | Narrative | CommunityNarrative => Narrative_exists this
  end.

End FetchJs.

(** ** The availability cache and alias completion *)

(** [global.availableDatasets]: the known paths per source name, and the
    members [defaults] and [secondTreeOptions].  In the code the paths of a
    source sit in the same object as these two members, under the name of the
    source; no source is named [defaults] or [secondTreeOptions]. *)
Record AvailableDatasets := {
  paths : gmap string (list string);
  defaults : gmap string (gmap string string);
  secondTreeOptions : gmap string (gmap string (list string))
}.

(** Reading a property of [undefined]. *)
Definition readOfUndefined (property : string) : Error :=
  TypeError ("Cannot read properties of undefined (reading '"
             +:+ property +:+ "')").

(** [Dataset.resolve()].  The method calls itself on the dataset it builds;
    [fuel] bounds the number of nested calls, and [None] means that the
    bound was reached. *)
Fixpoint resolve (fuel : nat) (av : AvailableDatasets) (this : Resource)
    : option (result Resource) :=
  match fuel with
  | O => None
  | S fuel' =>
      let sourceName := name (source this) in
      let prefixParts := pathParts this in
      match paths av !! sourceName with
      | None => Some (Ok this)
      | Some known =>
          let prefix := JS.join "/" prefixParts in
          if JS.includes known prefix then Some (Ok this)
          else
            match defaults av !! sourceName with
            | None => Some (Err (readOfUndefined prefix))
            | Some ofSource =>
                match ofSource !! prefix with
                | Some nextDefaultPart =>
                    if JS.truthy nextDefaultPart then
                      match new_Resource (class this) (source this)
                              (prefixParts ++ [nextDefaultPart]) with
                      | Ok dataset => resolve fuel' av dataset
                      | Err err => Some (Err err)
                      end
                    else Some (Ok this)
                | None => Some (Ok this)
                end
            end
      end
  end.

(** The number of nested calls after which [resolve] has always returned:
    every call looks up a key of the defaults of the source that is strictly
    longer than the one before. *)
Definition resolveDepth (av : AvailableDatasets) (this : Resource) : nat :=
  match defaults av !! name (source this) with
  | None => 1
  | Some ofSource =>
      S (S (max_list (String.length <$> (map_to_list ofSource).*1)))
  end.

(** [secondTreeOptions(path)]: only the core sources read the cache. *)
Definition source_secondTreeOptions
    (av : AvailableDatasets) (s : Source) (path : string) : list string :=
  match s with
  | CoreSource | CoreStagingSource =>
      default [] (default ∅ (secondTreeOptions av !! name s) !! path)
  | _ => []
  end.

(** ** Community sources *)

(** The constructor of [CommunitySource].  The request for the default
    branch is issued at once; the record holds its settled outcome. *)
Definition new_CommunitySource (owner_ repoName_ : string) : M Source :=
  if negb (JS.truthy owner_) then
    throw (GenericError "Cannot construct a CommunitySource without an owner")
  else if negb (JS.truthy repoName_) then
    throw (GenericError "Cannot construct a CommunitySource without a repoName")
  else
    let pieces := take 2 (JS.split "@" repoName_) in
    let repoName' := default "" (pieces !! 0) in
    let branch' := pieces !! 1 in
    let explicit := from_option JS.truthy false branch' in
    if negb (JS.truthy repoName') then
      throw (GenericError
        "Cannot construct a CommunitySource without a repoName after splitting on /@/")
    else
      let* defaultBranch' :=
        tryCatch
          (let* res := fetch ("https://api.github.com/repos/" +:+ owner_
                              +:+ "/" +:+ repoName') GET in
           match json res with
           | Some (JRepository b) => ret b
           | Some (JListing _) => ret None
           | None => throw (GenericError "invalid json response body")
           end)
          (fun _ => ret (Some "master")) in
      ret (CommunitySource
             {| owner := owner_;
                repoName := repoName';
                branch := if explicit then branch' else defaultBranch';
                branchExplicitlyDefined := explicit;
                defaultBranch := defaultBranch' |}).

(** [async repoNameWithBranch()]. *)
Definition repoNameWithBranch (c : Community) : string :=
  if bool_decide (branch c = defaultBranch c) && negb (branchExplicitlyDefined c)
  then repoName c
  else repoName c +:+ "@" +:+ template (branch c).

(** ** Listings *)

(** [await response.json()] where the code goes on to treat the body as an
    array of entries. *)
Definition listingOf (response : Response) : M (list ContentsEntry) :=
  match json response with
  | Some (JListing files) => ret files
  | Some (JRepository _) => throw (TypeError "files.filter is not a function")
  | None => throw (GenericError "invalid json response body")
  end.

Definition isFile (file : ContentsEntry) : bool :=
  String.eqb (entry_type file) "file".

(** [name.replace(/[.]md$/, "").split("_").join("/")]. *)
Definition narrativePath (fileName : string) : string :=
  JS.join "/" (JS.split "_" (JS.stripSuffix ".md" fileName)).

Definition isSuccess (response : Response) : bool :=
  Z.eqb (status response) 200 || Z.eqb (status response) 304.

(** [CoreSource.availableNarratives()], which the staging source inherits. *)
Definition CoreSource_availableNarratives (this : Source) : M (list string) :=
  let* qs := ask (fun w => queryString_ref w (source_branch this)) in
  let* response :=
    fetch ("https://api.github.com/repos/" +:+ repo this +:+ "/contents?"
           +:+ qs) GET in
  if Z.eqb (status response) 404 then throw NotFound
  else if negb (isSuccess response) then
    let* details := ask (fun w => responseDetails w response) in
    let* _ := warn
      ["Error fetching available narratives from GitHub for source "
       +:+ name this; details] in
    ret []
  else
    let* files := listingOf response in
    ret (map (fun file => narrativePath (entry_name file))
           (List.filter (fun file => JS.endsWith (entry_name file) ".md")
              (List.filter (fun file => negb (String.eqb (entry_name file) "README.md"))
                 (List.filter isFile files)))).

(** [CommunitySource.availableDatasets()]. *)
Definition CommunitySource_availableDatasets
    (this : Source) (c : Community) : M (list string) :=
  let* qs := ask (fun w => queryString_ref w (branch c)) in
  let* response :=
    fetch ("https://api.github.com/repos/" +:+ repo this
           +:+ "/contents/auspice?" +:+ qs) GET in
  if Z.eqb (status response) 404 then throw NotFound
  else if negb (isSuccess response) then
    let* details := ask (fun w => responseDetails w response) in
    let* _ := warn
      ["Error fetching available datasets from GitHub for source "
       +:+ name this; details] in
    ret []
  else
    let* files := listingOf response in
    let filenames :=
      map entry_name
        (List.filter
           (fun file => JS.startsWith (entry_name file) (repoName c))
           (List.filter isFile files)) in
    let* pathnames :=
      ask (fun w => getDatasetsFromListOfFilenames w filenames) in
    ret (map (JS.removeFirst (repoName c +:+ "/")) pathnames).

(** [CommunitySource.availableNarratives()]. *)
Definition CommunitySource_availableNarratives
    (this : Source) (c : Community) : M (list string) :=
  let* qs := ask (fun w => queryString_ref w (branch c)) in
  let* response :=
    fetch ("https://api.github.com/repos/" +:+ repo this
           +:+ "/contents/narratives?" +:+ qs) GET in
  if negb (isSuccess response) then
    let* _ :=
      if negb (Z.eqb (status response) 404) then
        let* details := ask (fun w => responseDetails w response) in
        warn ["Error fetching available narratives from GitHub for source "
              +:+ name this; details]
      else ret tt in
    ret []
  else
    let* files := listingOf response in
    ret (map (fun file =>
                narrativePath
                  (JS.stripPrefix "_"
                     (JS.removeFirst (repoName c) (entry_name file))))
           (List.filter
              (fun file => JS.startsWith (entry_name file) (repoName c))
              (List.filter (fun file => JS.endsWith (entry_name file) ".md")
                 (List.filter (fun file => negb (String.eqb (entry_name file) "README.md"))
                    (List.filter isFile files))))).

Definition newline : string := String (ascii_of_nat 10) "".

(** [S3Source._listObjects()]: the callback of [eachPage] sees the pages in
    turn, then [null]; an error on a page is logged and rejects. *)
Fixpoint eachPage (this : Source) (pages : list (result (list string)))
    (contents : list string) : M (list string) :=
  match pages with
  | [] => ret contents
  | Err err :: _ =>
      let* _ := warn ["Could not list S3 objects for group '" +:+ name this
                      +:+ "'" +:+ newline +:+ errMessage err] in
      throw err
  | Ok data :: rest => eachPage this rest (contents ++ data)
  end.

Definition _listObjects (this : Source) (g : Group) : M (list string) :=
  let* pages := ask (fun w => listObjectsV2 w (bucket g)) in
  eachPage this pages [].

(** [source.availableDatasets()]. *)
Definition availableDatasets
    (av : AvailableDatasets) (this : Source) : M (list string) :=
  match this with
  | CoreSource | CoreStagingSource => ret (default [] (paths av !! name this))
  | CommunitySource c => CommunitySource_availableDatasets this c
  | UrlDefinedSource _ => ret []
  | PublicGroupSource g | PrivateGroupSource g =>
      let* objects := _listObjects this g in
      ask (fun w => getDatasetsFromListOfFilenames w objects)
  end.

(** [source.availableNarratives()]. *)
Definition availableNarratives (this : Source) : M (list string) :=
  match this with
  | CoreSource | CoreStagingSource => CoreSource_availableNarratives this
  | CommunitySource c => CommunitySource_availableNarratives this c
  | UrlDefinedSource _ => ret []
  | PublicGroupSource g | PrivateGroupSource g =>
      let* objects := _listObjects this g in
      ret (map narrativePath
             (List.filter (fun file => JS.endsWith file ".md")
                (List.filter (fun file => negb (String.eqb file "group-overview.md")) objects)))
  end.

(** ** Descriptive information *)

Definition truthyValue (v : JSValue) : bool :=
  match v with
  | VUndefined | VNull => false
  | VBool b => b
  | VNumber n => negb (Z.eqb n 0)
  | VString s => JS.truthy s
  | VArray _ | VObject => true
  end.

(** [typeof v === 'boolean']. *)
Definition isBoolean (v : JSValue) : bool :=
  match v with VBool _ => true | _ => false end.

(** [v == null]. *)
Definition isNullish (v : JSValue) : bool :=
  match v with VUndefined | VNull => true | _ => false end.

(** [String.prototype.includes]. *)
Fixpoint contains (s sub : string) : bool :=
  if String.prefix sub s then true
  else match s with
       | EmptyString => false
       | String _ s' => contains s' sub
       end.

(** [v.includes(needle)] on a value that may not have the method. *)
Definition valueIncludes (v : JSValue) (needle : string) : result bool :=
  match v with
  | VString s => Ok (contains s needle)
  | VArray items =>
      Ok (existsb (fun item =>
                     match item with
                     | VString s => String.eqb s needle
                     | _ => false
                     end) items)
  | _ => Err (TypeError "frontMatter.website.includes is not a function")
  end.

(** [s.replace(/\r\n/g, "\n")]. *)
Fixpoint crlfToLf (s : string) : string :=
  match s with
  | EmptyString => EmptyString
  | String c rest =>
      match rest with
      | String d rest' =>
          if Ascii.eqb c (ascii_of_nat 13) && Ascii.eqb d (ascii_of_nat 10)
          then String d (crlfToLf rest')
          else String c (crlfToLf rest)
      | EmptyString => String c EmptyString
      end
  end.

Definition quote : string := String (ascii_of_nat 34) "".

(** [parseOverviewMarkdown(overviewMarkdown)]: the title, byline, website,
    showDatasets, showNarratives and content of the overview. *)
Definition parseOverviewMarkdown (overviewMarkdown : string)
    : M (JSValue * JSValue * JSValue * JSValue * JSValue * string) :=
  let* parsed := ask (fun w => loadFront w overviewMarkdown) in
  let* frontMatter := lift parsed in
  if negb (truthyValue (fm_title frontMatter)) then
    throw (GenericError
             "The overview file requires `title` in the frontmatter.")
  else
    let* _ :=
      if truthyValue (fm_website frontMatter) then
        let* hasHttp := lift (valueIncludes (fm_website frontMatter) "http") in
        if negb hasHttp then
          throw (GenericError
                   ("The website field in the overview file requires "
                    +:+ quote +:+ "http" +:+ quote +:+ " to be present."))
        else ret tt
      else ret tt in
    if truthyValue (fm_showDatasets frontMatter)
       && negb (isBoolean (fm_showDatasets frontMatter)) then
      throw (GenericError
               "The `showDatasets` field in the frontmatter must be a boolean.")
    else if truthyValue (fm_showNarratives frontMatter)
            && negb (isBoolean (fm_showNarratives frontMatter)) then
      throw (GenericError
               "The `showNarratives` field in the frontmatter must be a boolean.")
    else
      let content := crlfToLf (fm_content frontMatter) in
      ret (fm_title frontMatter, fm_byline frontMatter,
           fm_website frontMatter, fm_showDatasets frontMatter,
           fm_showNarratives frontMatter, content).

(** [getAndDecompressObject(key)]. *)
Definition getAndDecompressObject (g : Group) (key : string) : M string :=
  let* fetched := ask (fun w => getObject w (bucket g) key) in
  let* object := lift fetched in
  if bool_decide (ContentEncoding object = Some "gzip") then
    let* unzipped := ask (fun w => gunzipSync w (Body object)) in
    lift unzipped
  else ret (Body object).

(** The record [getInfo()] resolves to; a member the code leaves out is
    [VUndefined] or [None]. *)
Record Info := {
  title : JSValue;
  byline : JSValue;
  website : JSValue;
  showDatasets : JSValue;
  showNarratives : JSValue;
  avatar : option string;
  overview : option string;
  error : option string
}.

Definition groupTitle (this : Source) : string :=
  quote +:+ name this +:+ quote +:+ " Nextstrain group".

Definition groupByline : string :=
  "The available datasets and narratives in this group are listed below.".

(** The body of the [try] block of [S3Source.getInfo()]. *)
Definition S3Source_getInfo_try (this : Source) (g : Group) : M Info :=
  let* objectKeys := _listObjects this g in
  let* logoSrc :=
    if JS.includes objectKeys "group-logo.png" then
      let* signed :=
        ask (fun w => getSignedUrl w "getObject" (bucket g) "group-logo.png") in
      ret (Some signed)
    else ret None in
  if JS.includes objectKeys "group-overview.md" then
    let* overviewContent := getAndDecompressObject g "group-overview.md" in
    let* parsed := parseOverviewMarkdown overviewContent in
    let '(title', byline', website', showDatasets', showNarratives', overview') :=
      parsed in
    ret {| title := title';
           byline := byline';
           website := website';
           showDatasets :=
             if isNullish showDatasets' then VBool true else showDatasets';
           showNarratives :=
             if isNullish showNarratives' then VBool true else showNarratives';
           avatar := logoSrc;
           overview := Some overview';
           error := None |}
  else
    ret {| title := VString (groupTitle this);
           byline := VString groupByline;
           website := VNull;
           showDatasets := VBool true;
           showNarratives := VBool true;
           avatar := logoSrc;
           overview := None;
           error := None |}.

(** The record the [catch] block of [S3Source.getInfo()] returns. *)
Definition S3Source_getInfo_fallback (this : Source) (err : Error) : Info :=
  {| title := VString (groupTitle this);
     byline := VString groupByline;
     website := VNull;
     showDatasets := VBool true;
     showNarratives := VBool true;
     avatar := None;
     overview := None;
     error := Some ("Error in custom group info: " +:+ errMessage err) |}.

(** [S3Source.getInfo()]. *)
Definition S3Source_getInfo (this : Source) (g : Group) : M Info :=
  tryCatch (S3Source_getInfo_try this g)
           (fun err => ret (S3Source_getInfo_fallback this err)).

(** [CommunitySource.getInfo()]. *)
Definition CommunitySource_getInfo (c : Community) : M Info :=
  ret {| title := VString (owner c +:+ "'s " +:+ quote +:+ repoName c
                           +:+ quote +:+ " community builds");
         byline := VString
           (newline
            +:+ "        Nextstrain community builds for GitHub → "
            +:+ owner c +:+ "/" +:+ repoName c
            +:+ " (" +:+ template (branch c) +:+ " branch)." +:+ newline
            +:+ "        The available datasets and narratives in this repository are listed below."
            +:+ newline +:+ "      ");
         website := VNull;
         showDatasets := VBool true;
         showNarratives := VBool true;
         avatar := Some ("https://github.com/" +:+ owner c +:+ ".png?size=200");
         overview := None;
         error := None |}.

(** [source.getInfo()]. *)
Definition getInfo (this : Source) : M Info :=
  match this with
  | CoreSource | CoreStagingSource =>
      ret {| title := VString ("Nextstrain " +:+ name this
                               +:+ " datasets & narratives");
             byline := VUndefined;
             website := VUndefined;
             showDatasets := VBool true;
             showNarratives := VBool true;
             avatar := None;
             overview := None;
             error := None |}
  | CommunitySource c => CommunitySource_getInfo c
  | UrlDefinedSource _ =>
      ret {| title := VUndefined;
             byline := VUndefined;
             website := VUndefined;
             showDatasets := VUndefined;
             showNarratives := VUndefined;
             avatar := None;
             overview := None;
             error := None |}
  | PublicGroupSource g | PrivateGroupSource g => S3Source_getInfo this g
  end.

(** ** Observations used to state the properties *)

(** The HEAD request [exists()] issues for one subresource of a resource. *)
Definition headRequest (w : World) (this : Resource) (ty : string)
    : option Request :=
  match subresource this ty with
  | Ok sub =>
      match fst (run w (url sub HEAD)) with
      | Ok u => Some {| req_url := u; req_method := HEAD |}
      | Err _ => None
      end
  | Err _ => None
  end.

(** The status the network answers that request with, if it answers. *)
Definition headStatus (w : World) (this : Resource) (ty : string) : option Z :=
  match headRequest w this ty with
  | Some rq =>
      match fetch_response w rq with
      | Ok response => Some (status response)
      | Err _ => None
      end
  | None => None
  end.

(** The state of the effects once one more request has been issued. *)
Definition issue (rq : Request) (e : Effects) : Effects :=
  {| requests := requests e ++ [rq]; warnings := warnings e |}.

(** The state of the effects once one more line has been logged. *)
Definition warned (line : list string) (e : Effects) : Effects :=
  {| requests := requests e; warnings := warnings e ++ [line] |}.

(** The listing operations that query the GitHub contents API:
    [availableNarratives()] of the core and staging sources and both
    listings of a community source. *)
Inductive GitHubListing :=
| CoreNarratives (staging : bool)
| CommunityDatasets (c : Community)
| CommunityNarratives (c : Community).

Definition coreSource (staging : bool) : Source :=
  if staging then CoreStagingSource else CoreSource.

Definition runListing (av : AvailableDatasets) (op : GitHubListing)
    : M (list string) :=
  match op with
  | CoreNarratives staging => availableNarratives (coreSource staging)
  | CommunityDatasets c => availableDatasets av (CommunitySource c)
  | CommunityNarratives c => availableNarratives (CommunitySource c)
  end.

(** The request a listing operation sends. *)
Definition listingRequest (w : World) (op : GitHubListing) : Request :=
  let api := "https://api.github.com/repos/" in
  match op with
  | CoreNarratives staging =>
      {| req_url := api +:+ repo (coreSource staging) +:+ "/contents?"
                    +:+ queryString_ref w (source_branch (coreSource staging));
         req_method := GET |}
  | CommunityDatasets c =>
      {| req_url := api +:+ repo (CommunitySource c) +:+ "/contents/auspice?"
                    +:+ queryString_ref w (branch c);
         req_method := GET |}
  | CommunityNarratives c =>
      {| req_url := api +:+ repo (CommunitySource c) +:+ "/contents/narratives?"
                    +:+ queryString_ref w (branch c);
         req_method := GET |}
  end.

(** The line a listing operation logs on a failure it tolerates. *)
Definition listingWarning (w : World) (op : GitHubListing) (response : Response)
    : list string :=
  match op with
  | CoreNarratives staging =>
      ["Error fetching available narratives from GitHub for source "
       +:+ name (coreSource staging); responseDetails w response]
  | CommunityDatasets c =>
      ["Error fetching available datasets from GitHub for source "
       +:+ name (CommunitySource c); responseDetails w response]
  | CommunityNarratives c =>
      ["Error fetching available narratives from GitHub for source "
       +:+ name (CommunitySource c); responseDetails w response]
  end.

(** ** Test doubles *)

Module Fixtures.

(** Collaborators that resolve a key against a base URL by appending it,
    list every bucket as [pages], hold no object and answer requests as
    [answer] says. *)
Definition world (answer : Request -> result Response)
    (pages : list (result (list string))) : World :=
  {| URL_toString := fun path base =>
       if JS.endsWith base "/" then base +:+ path else base +:+ "/" +:+ path;
     getSignedUrl := fun operation bucket_ key =>
       "https://" +:+ bucket_ +:+ ".s3.amazonaws.com/" +:+ key
         +:+ "?operation=" +:+ operation;
     queryString_ref := fun ref =>
       match ref with Some b => "ref=" +:+ b | None => "" end;
     fetch_response := answer;
     listObjectsV2 := fun _ => pages;
     getObject := fun _ _ => Err (GenericError "NoSuchKey");
     gunzipSync := fun body => Ok body;
     loadFront := fun _ => Err (GenericError "bad front matter");
     getDatasetsFromListOfFilenames := fun names => names;
     responseDetails := fun response => "" |}.

Definition answerAll (code : Z) : Request -> result Response :=
  fun _ => Ok {| status := code; json := None |}.

(** Only the main JSON of a dataset is missing. *)
Definition legacyOnly : Request -> result Response :=
  fun rq =>
    if JS.endsWith (req_url rq) "_meta.json"
       || JS.endsWith (req_url rq) "_tree.json"
    then Ok {| status := 200; json := None |}
    else Ok {| status := 404; json := None |}.

Definition zika : Resource :=
  {| class := Dataset; source := CoreSource; pathParts := ["zika"] |}.

Definition urlDefined : Resource :=
  {| class := UrlDefinedDataset;
     source := UrlDefinedSource "example.org";
     pathParts := ["data"; "zika.json"] |}.

Definition urlDefinedNarrative : Resource :=
  {| class := UrlDefinedNarrative;
     source := UrlDefinedSource "example.org";
     pathParts := ["data"; "intro.md"] |}.

Definition communityTest : Community :=
  {| owner := "nextstrain";
     repoName := "community-test";
     branch := Some "master";
     branchExplicitlyDefined := false;
     defaultBranch := Some "master" |}.

Definition blab : Group := group "blab".

(** The cache of the alias example: [flu/seasonal] completes, one segment
    at a time, to [flu/seasonal/h3n2/ha/2y]. *)
Definition fluCache : AvailableDatasets :=
  {| paths := {[ "core" := ["flu/seasonal/h3n2/ha/2y"; "zika"] ]};
     defaults :=
       {[ "core" := {[ "flu" := "seasonal";
                       "flu/seasonal" := "h3n2";
                       "flu/seasonal/h3n2" := "ha";
                       "flu/seasonal/h3n2/ha" := "2y" ]} ]};
     secondTreeOptions := ∅ |}.

Definition fluSeasonal : Resource :=
  {| class := Dataset; source := CoreSource;
     pathParts := ["flu"; "seasonal"] |}.

Definition fluCanonical : Resource :=
  {| class := Dataset; source := CoreSource;
     pathParts := ["flu"; "seasonal"; "h3n2"; "ha"; "2y"] |}.

(** Defaults that keep sending [a] to [b] and [b] to [a]. *)
Definition pingPong : AvailableDatasets :=
  {| paths := {[ "core" := ["zika"] ]};
     defaults :=
       {[ "core" := {[ "a" := "b"; "a/b" := "a"; "a/b/a" := "b" ]} ]};
     secondTreeOptions := ∅ |}.

(** Known paths for the core source, but no defaults for it. *)
Definition noDefaults : AvailableDatasets :=
  {| paths := {[ "core" := ["zika"] ]};
     defaults := ∅;
     secondTreeOptions := ∅ |}.

Definition flu : Resource :=
  {| class := Dataset; source := CoreSource; pathParts := ["flu"] |}.

Definition aliasA : Resource :=
  {| class := Dataset; source := CoreSource; pathParts := ["a"] |}.

(** Main JSON missing, both legacy files present. *)
Definition legacyStatuses (ty : string) : Z :=
  if String.eqb ty "main" then 404%Z else 200%Z.

Definition accessDenied : Error := GenericError "Access Denied".

End Fixtures.

(** ** Further samples *)

Module Samples.

Definition h3n2 : Resource :=
  {| class := Dataset; source := CoreSource;
     pathParts := ["flu"; "seasonal"; "h3n2"; "ha"; "2y"] |}.

Definition h3n2Frequencies : Subresource :=
  {| subclass := DatasetSubresource; resource := h3n2;
     type := "tip-frequencies" |}.

Definition fetched : Resource :=
  {| class := UrlDefinedDataset;
     source := UrlDefinedSource "data.example.org";
     pathParts := ["builds"; "zika.json"] |}.

Definition fetchedTree : Subresource :=
  {| subclass := UrlDefinedDatasetSubresource; resource := fetched;
     type := "tree" |}.

Definition privateZika : Resource :=
  {| class := Dataset; source := PrivateGroupSource Fixtures.blab;
     pathParts := ["zika"] |}.

Definition privateZikaMeta : Subresource :=
  {| subclass := DatasetSubresource; resource := privateZika; type := "meta" |}.

Definition communityRoot : Resource :=
  {| class := CommunityDataset;
     source := CommunitySource Fixtures.communityTest;
     pathParts := [] |}.

(** A bucket of two pages with a narrative and the overview. *)
Definition narrated : World :=
  Fixtures.world (Fixtures.answerAll 200)
    [Ok ["zika.json"; "test_fixture.md"]; Ok ["group-overview.md"]].

(** A contents listing of the [narratives] directory of a repository. *)
Definition communityListing : list ContentsEntry :=
  [ {| entry_name := "README.md"; entry_type := "file" |};
    {| entry_name := "community-test_intro-to-narratives.md";
       entry_type := "file" |} ].

Definition intro : Resource :=
  {| class := Narrative; source := CoreSource;
     pathParts := ["intro-to-narratives"] |}.

(** An overview with a title and a website, datasets hidden. *)
Definition overviewFrontMatter : FrontMatter :=
  {| fm_title := VString "Bedford lab";
     fm_byline := VUndefined;
     fm_website := VString "https://bedford.io";
     fm_showDatasets := VBool false;
     fm_showNarratives := VUndefined;
     fm_content := "Welcome." |}.

(** A bucket that holds a gzipped overview and a logo. *)
Definition customised : World :=
  {| URL_toString := fun path base => base +:+ path;
     getSignedUrl := fun operation bucket_ key =>
       "https://" +:+ bucket_ +:+ ".s3.amazonaws.com/" +:+ key
         +:+ "?operation=" +:+ operation;
     queryString_ref := fun ref => default "" ref;
     fetch_response := fun _ => Err (GenericError "offline");
     listObjectsV2 := fun _ =>
       [Ok ["group-logo.png"; "zika.json"]; Ok ["group-overview.md"]];
     getObject := fun _ key =>
       Ok {| Body := "gz:" +:+ key; ContentEncoding := Some "gzip" |};
     gunzipSync := fun body => Ok (JS.drop 3 body);
     loadFront := fun _ => Ok overviewFrontMatter;
     getDatasetsFromListOfFilenames := fun names => names;
     responseDetails := fun _ => "" |}.

End Samples.

(** A computation that adds at most [n] requests, all of them HEAD
    requests, and logs nothing. *)
Definition onlyHeads {A} (n : nat) (m : M A) : Prop :=
  forall w e, exists new,
    snd (m w e) = {| requests := requests e ++ new; warnings := warnings e |}
    /\ Forall (fun rq => req_method rq = HEAD) new
    /\ length new <= n.

(** The outcome of one awaited [fetch]. *)
Definition answered (w : World) (rq : Request) : result bool :=
  match fetch_response w rq with
  | Ok response => Ok (Z.eqb (status response) 200)
  | Err err => Err err
  end.

(** A computation that leaves the log of [fetch] requests as it is and adds
    at most [n] lines to the log of warnings. *)
Definition logsAtMost {A} (n : nat) (m : M A) : Prop :=
  forall w e, exists lines,
    snd (m w e) = {| requests := requests e; warnings := warnings e ++ lines |}
    /\ length lines <= n.

(** Front matter the checks of [parseOverviewMarkdown] let through. *)
Definition acceptedFrontMatter (fm : FrontMatter) : Prop :=
  truthyValue (fm_title fm) = true
  /\ (truthyValue (fm_website fm) = true ->
      valueIncludes (fm_website fm) "http" = Ok true)
  /\ (truthyValue (fm_showDatasets fm) = true ->
      fm_showDatasets fm = VBool true)
  /\ (truthyValue (fm_showNarratives fm) = true ->
      fm_showNarratives fm = VBool true).

(** The request the constructor of a community source sends, and the
    default branch it settles on. *)
Definition repositoryRequest (owner_ repoName_ : string) : Request :=
  {| req_url := "https://api.github.com/repos/" +:+ owner_ +:+ "/" +:+ repoName_;
     req_method := GET |}.

Definition lookedUpBranch (w : World) (owner_ repoName_ : string)
    : option string :=
  match fetch_response w (repositoryRequest owner_ repoName_) with
  | Ok res =>
      match json res with
      | Some (JRepository b) => b
      | Some (JListing _) => None
      | None => Some "master"
      end
  | Err _ => Some "master"
  end.

(** ** The registry *)

(** The classes the module registers; a group class is given by its name
    and bucket. *)
Inductive SourceClass :=
| CoreSourceClass
| CoreStagingSourceClass
| CommunitySourceClass
| UrlDefinedSourceClass
| PublicGroupSourceClass (g : Group)
| PrivateGroupSourceClass (g : Group).

(** [static get _name()]. *)
Definition _name (cls : SourceClass) : string :=
  match cls with
  | CoreSourceClass => "core"
  | CoreStagingSourceClass => "staging"
  | CommunitySourceClass => "community"
  | UrlDefinedSourceClass => "fetch"
  | PublicGroupSourceClass g | PrivateGroupSourceClass g => group_name g
  end.

(** The array [sources]. *)
Definition sources : list SourceClass :=
  [CoreSourceClass; CoreStagingSourceClass; CommunitySourceClass;
   UrlDefinedSourceClass]
  ++ map PublicGroupSourceClass publicGroups
  ++ map PrivateGroupSourceClass privateGroups.

(** [new Map(sources.map(s => [s._name, s]))]: entries are set in order, a
    later entry replacing an earlier one of the same name. *)
Definition sourceMapOf (classes : list SourceClass) : gmap string SourceClass :=
  foldl (fun m cls => <[_name cls := cls]> m) ∅ classes.

Definition sourceMap : gmap string SourceClass := sourceMapOf sources.

(** ** The page of a group *)

(** One entry of the listing of available datasets or narratives, and the
    row the page shows for it. *)
Record Available := { request : string }.

Record ListingRow := {
  row_filename : string;
  row_url : string;
  row_contributor : string
}.

(** [createDatasetListing(list, groupName)] of
    [static-site/src/sections/individual-group-page.jsx]. *)
Definition createDatasetListing (list_ : list Available) (groupName : string)
    : list ListingRow :=
  map (fun d =>
         {| row_filename :=
              JS.removeFirst "narratives/"
                (JS.removeFirst ("groups/" +:+ groupName +:+ "/") (request d));
            row_url := "/" +:+ request d;
            row_contributor := groupName |}) list_.

(** ** The call stack and inherited properties *)

(** How a call of [resolve()] ends on an engine whose stack has room for
    [frames] nested calls of the method: it returns a dataset, it throws, or
    the nesting exceeds the stack and the engine raises its [RangeError]. *)
Inductive Outcome :=
| Returned (dataset : Resource)
| Threw (err : Error)
| StackOverflow.

Definition resolveOnStack (frames : nat) (av : AvailableDatasets)
    (this : Resource) : Outcome :=
  match resolve frames av this with
  | Some (Ok dataset) => Returned dataset
  | Some (Err err) => Threw err
  | None => StackOverflow
  end.

(** The names a plain object answers although it does not hold them: the
    members of [Object.prototype].  Where a key is none of these, reading
    it off an object is the lookup in the map of its own keys. *)
Definition objectPrototypeProperties : list string :=
  [ "constructor"; "__proto__"; "hasOwnProperty"; "isPrototypeOf";
    "propertyIsEnumerable"; "toLocaleString"; "toString"; "valueOf";
    "__defineGetter__"; "__defineSetter__"; "__lookupGetter__";
    "__lookupSetter__" ].

(** ** Facts about the JavaScript helpers *)

Section JSFacts.

Lemma includes_elem_of (xs : list string) (x : string) :
  JS.includes xs x = true <-> x ∈ xs.
Proof.
  unfold JS.includes. rewrite existsb_exists. split.
  - intros (y & Hin & Heq). apply String.eqb_eq in Heq. subst y.
    by apply list_elem_of_In.
  - intros Hin. exists x. split; [by apply list_elem_of_In|].
    apply String.eqb_refl.
Qed.

Lemma includes_nil (x : string) : JS.includes [] x = false.
Proof. reflexivity. Qed.

Lemma length_append (a b : string) :
  String.length (a +:+ b) = String.length a + String.length b.
Proof. induction a as [|c a IH]; simpl; [done | by rewrite IH]. Qed.

Lemma append_assoc (a b c : string) : (a +:+ b) +:+ c = a +:+ b +:+ c.
Proof.
  induction a as [|x a IH]; [done|].
  change (String x (((a +:+ b) +:+ c)) = String x (a +:+ b +:+ c)).
  by rewrite IH.
Qed.

Lemma truthy_nonempty (s : string) :
  JS.truthy s = true -> 0 < String.length s.
Proof. destruct s; simpl; [discriminate | lia]. Qed.

Lemma join_snoc (sep : string) (parts : list string) (x : string) :
  JS.join sep (parts ++ [x]) =
    match parts with
    | [] => x
    | _ :: _ => JS.join sep parts +:+ sep +:+ x
    end.
Proof.
  induction parts as [|p rest IH]; [done|].
  destruct rest as [|q rest'].
  - reflexivity.
  - change (JS.join sep ((p :: q :: rest') ++ [x]))
      with (p +:+ sep +:+ JS.join sep ((q :: rest') ++ [x])).
    rewrite IH.
    change (JS.join sep (p :: q :: rest'))
      with (p +:+ sep +:+ JS.join sep (q :: rest')).
    by rewrite !append_assoc.
Qed.

(** Appending a truthy segment makes the joined path strictly longer. *)
Lemma join_snoc_longer (sep : string) (parts : list string) (x : string) :
  JS.truthy x = true ->
  String.length (JS.join sep parts)
    < String.length (JS.join sep (parts ++ [x])).
Proof.
  intros Hx%truthy_nonempty. rewrite join_snoc.
  destruct parts as [|p rest]; [simpl; lia|].
  rewrite !length_append. lia.
Qed.

End JSFacts.

(** ** Facts about construction *)

Lemma new_Resource_Ok cl src parts r :
  new_Resource cl src parts = Ok r ->
  r = {| class := cl; source := src; pathParts := parts |}.
Proof.
  unfold new_Resource. destruct (Nat.eqb _ 0); [discriminate|].
  by intros [= <-].
Qed.

Lemma new_Resource_snoc cl src parts x :
  new_Resource cl src (parts ++ [x])
  = Ok {| class := cl; source := src; pathParts := parts ++ [x] |}.
Proof.
  unfold new_Resource, baseParts. simpl.
  destruct cl; simpl; try reflexivity;
    destruct parts; reflexivity.
Qed.

(** ** Facts about alias completion *)

Section Resolve.

Variable av : AvailableDatasets.

(** More fuel does not change an answer. *)
Lemma resolve_fuel_mono (n : nat) :
  forall (this : Resource) (out : result Resource),
    resolve n av this = Some out ->
    forall m, n <= m -> resolve m av this = Some out.
Proof.
  induction n as [|n IH]; intros this out Hres m Hle; [discriminate|].
  destruct m as [|m]; [lia|].
  simpl in Hres |- *.
  destruct (paths av !! name (source this)) as [known|]; [|done].
  destruct (JS.includes known _); [done|].
  destruct (defaults av !! name (source this)) as [ofSource|]; [|done].
  destruct (ofSource !! _) as [next|]; [|done].
  destruct (JS.truthy next); [|done].
  destruct (new_Resource _ _ _) as [dataset|err]; [|done].
  apply (IH dataset out Hres). lia.
Qed.

Lemma key_length_le (ofSource : gmap string string) (k v : string) :
  ofSource !! k = Some v ->
  String.length k <= max_list (String.length <$> (map_to_list ofSource).*1).
Proof.
  intros Hk. apply max_list_elem_of_le.
  apply list_elem_of_fmap. exists k. split; [done|].
  apply list_elem_of_fmap. exists (k, v). split; [done|].
  by apply elem_of_map_to_list.
Qed.

(** [resolve] returns as soon as the fuel exceeds the room left between the
    joined path and the longest key of the defaults of the source. *)
Lemma resolve_enough_fuel (k : nat) :
  forall this : Resource,
    (forall ofSource,
        defaults av !! name (source this) = Some ofSource ->
        S (max_list (String.length <$> (map_to_list ofSource).*1))
          <= k + String.length (JS.join "/" (pathParts this))) ->
    exists out, resolve (S k) av this = Some out.
Proof.
  induction k as [|k IH]; intros this Hroom.
  - simpl.
    destruct (paths av !! name (source this)) as [known|]; [|eauto].
    destruct (JS.includes known _); [eauto|].
    destruct (defaults av !! name (source this)) as [ofSource|] eqn:Hd;
      [|eauto].
    destruct (ofSource !! _) as [next|] eqn:Hnext; [|eauto].
    apply key_length_le in Hnext. specialize (Hroom ofSource eq_refl). lia.
  - cbn [resolve].
    destruct (paths av !! name (source this)) as [known|]; [|eauto].
    destruct (JS.includes known _); [eauto|].
    destruct (defaults av !! name (source this)) as [ofSource|] eqn:Hd;
      [|eauto].
    destruct (ofSource !! _) as [next|] eqn:Hnext; [|eauto].
    destruct (JS.truthy next) eqn:Htruthy; [|eauto].
    rewrite new_Resource_snoc.
    apply IH. simpl. intros ofSource' Hd'.
    rewrite Hd in Hd'. injection Hd' as <-.
    specialize (Hroom ofSource eq_refl).
    pose proof (join_snoc_longer "/" (pathParts this) next Htruthy). lia.
Qed.

(** What a returned dataset keeps of the one [resolve] was called on. *)
Lemma resolve_extends (n : nat) :
  forall this result_ : Resource,
    resolve n av this = Some (Ok result_) ->
    class result_ = class this /\
    source result_ = source this /\
    exists suffix, pathParts result_ = pathParts this ++ suffix.
Proof.
  induction n as [|n IH]; intros this result_ Hres; [discriminate|].
  assert (Hself : class this = class this /\ source this = source this /\
                  exists suffix, pathParts this = pathParts this ++ suffix).
  { repeat split. exists []. by rewrite app_nil_r. }
  simpl in Hres.
  destruct (paths av !! name (source this)) as [known|];
    [|by injection Hres as <-].
  destruct (JS.includes known _); [by injection Hres as <-|].
  destruct (defaults av !! name (source this)) as [ofSource|]; [|done].
  destruct (ofSource !! _) as [next|]; [|by injection Hres as <-].
  destruct (JS.truthy next); [|by injection Hres as <-].
  rewrite new_Resource_snoc in Hres.
  apply IH in Hres as (Hc & Hs & suffix & Hp). simpl in *.
  repeat split; [done..|].
  exists (next :: suffix). rewrite Hp. by rewrite <- app_assoc.
Qed.

(** A dataset [resolve] returns is one on which [resolve] stops at once. *)
Lemma resolve_fixpoint (n : nat) :
  forall this result_ : Resource,
    resolve n av this = Some (Ok result_) ->
    resolve 1 av result_ = Some (Ok result_).
Proof.
  induction n as [|n IH]; intros this result_ Hres; [discriminate|].
  simpl in Hres |- *.
  destruct (paths av !! name (source this)) as [known|] eqn:Hp.
  2:{ injection Hres as <-. by rewrite Hp. }
  destruct (JS.includes known _) eqn:Hin.
  { injection Hres as <-. by rewrite Hp, Hin. }
  destruct (defaults av !! name (source this)) as [ofSource|] eqn:Hd; [|done].
  destruct (ofSource !! _) as [next|] eqn:Hnext.
  2:{ injection Hres as <-. by rewrite Hp, Hin, Hd, Hnext. }
  destruct (JS.truthy next) eqn:Ht.
  2:{ injection Hres as <-. by rewrite Hp, Hin, Hd, Hnext, Ht. }
  rewrite new_Resource_snoc in Hres.
  by apply IH in Hres.
Qed.

End Resolve.

(** ** Community sources *)

(** A pinned branch is split off the repository name; the lookup of the
    default branch is issued all the same and falls back to [master]. *)
Example new_CommunitySource_pinned :
  run (Fixtures.world (fun _ => Err (GenericError "network down")) [])
      (new_CommunitySource "nextstrain" "community-test@alt")
  = (Ok (CommunitySource
           {| owner := "nextstrain";
              repoName := "community-test";
              branch := Some "alt";
              branchExplicitlyDefined := true;
              defaultBranch := Some "master" |}),
     {| requests :=
          [ {| req_url := "https://api.github.com/repos/nextstrain/community-test";
               req_method := GET |} ];
        warnings := [] |}).
Proof. vm_compute. reflexivity. Qed.

(** ** Access control *)

(** C1. [PrivateGroupSource.visibleToUser(p)] is true exactly when [p] is
    present, has a [groups] array and the array contains the name of the
    source; it is false for an absent principal and for one whose array is
    empty. *)
Theorem visibleToUser_private_iff (g : Group) (p : option User) :
  (visibleToUser (PrivateGroupSource g) p = true <->
     exists u gs,
       p = Some u /\ groups u = Some gs /\ name (PrivateGroupSource g) ∈ gs)
  /\ visibleToUser (PrivateGroupSource g) None = false
  /\ visibleToUser (PrivateGroupSource g) (Some {| groups := Some [] |}) = false.
Proof.
  split; [|by split].
  unfold visibleToUser, PrivateGroupSource_visibleToUser. simpl. split.
  - destruct p as [u|]; [|discriminate].
    destruct (groups u) as [gs|] eqn:Hg; [|discriminate].
    intros Hin%includes_elem_of. by exists u, gs.
  - intros (u & gs & -> & -> & Hin). by apply includes_elem_of.
Qed.

(** ** Construction *)

(** C7. A resource whose [baseParts] is empty cannot be constructed: the
    constructor throws [NoResourcePathError].  A core dataset without path
    segments is such a resource; a community dataset without path segments
    is not, because its [baseParts] starts with the [auspice/] entry. *)
Theorem empty_baseParts_fails :
  (forall (cl : ResourceClass) (src : Source) (parts : list string),
      baseParts {| class := cl; source := src; pathParts := parts |} = [] ->
      new_Resource cl src parts = Err NoResourcePathError)
  /\ dataset CoreSource [] = Err NoResourcePathError
  /\ (forall c : Community,
        dataset (CommunitySource c) []
        = Ok {| class := CommunityDataset;
                source := CommunitySource c;
                pathParts := [] |}).
Proof.
  split; [|by split].
  intros cl src parts Hempty. unfold new_Resource. by rewrite Hempty.
Qed.

Lemma empty_baseParts_fails_witness :
  new_Resource Narrative CoreStagingSource [] = Err NoResourcePathError.
Proof.
  apply (proj1 empty_baseParts_fails Narrative CoreStagingSource []).
  reflexivity.
Defined.

(** The constructor throws only for an empty [baseParts]. *)
Lemma new_Resource_Err cl src parts err :
  new_Resource cl src parts = Err err ->
  err = NoResourcePathError
  /\ baseParts {| class := cl; source := src; pathParts := parts |} = [].
Proof.
  unfold new_Resource.
  destruct (baseParts _) as [|b bs] eqn:Hb; simpl; [|discriminate].
  by intros [= <-].
Qed.

(** ** Existence *)

Lemma urlFor_pure (s : Source) (path : string) (method : Method) (w : World) :
  exists u, forall e, urlFor s path method w e = (Ok u, e).
Proof. destruct s; simpl; unfold ask; eauto. Qed.

(** One HEAD check: the request is issued and the answer compared to 200. *)
Lemma _exists_answered (w : World) (this : Resource) (ty : string)
    (rq : Request) (response : Response) (e : Effects) :
  headRequest w this ty = Some rq ->
  fetch_response w rq = Ok response ->
  _exists this ty w e = (Ok (Z.eqb (status response) 200), issue rq e).
Proof.
  unfold headRequest, _exists, bind, lift, run.
  destruct (subresource this ty) as [sub|]; [|discriminate].
  unfold url.
  destruct (urlFor_pure (source (resource sub)) (Subresource_baseName sub)
              HEAD w) as [u Hu].
  rewrite !Hu. simpl. intros [= <-] Hanswer.
  unfold fetch. by rewrite Hanswer.
Qed.

Lemma headStatus_inv (w : World) (this : Resource) (ty : string) (code : Z) :
  headStatus w this ty = Some code ->
  exists rq response,
    headRequest w this ty = Some rq
    /\ fetch_response w rq = Ok response
    /\ status response = code.
Proof.
  unfold headStatus.
  destruct (headRequest w this ty) as [rq|]; [|discriminate].
  destruct (fetch_response w rq) as [response|] eqn:Hanswer; [|discriminate].
  intros [= <-]. eauto.
Qed.

Lemma Dataset_exists_answered (w : World) (this : Resource) (st : string -> Z)
    (e : Effects) :
  (forall ty, ty ∈ ["main"; "meta"; "tree"] ->
              headStatus w this ty = Some (st ty)) ->
  fst (Dataset_exists this w e)
  = Ok (Z.eqb (st "main") 200
        || Z.eqb (st "meta") 200 && Z.eqb (st "tree") 200).
Proof.
  intros Hst.
  destruct (headStatus_inv w this "main" _ (Hst "main" ltac:(set_solver)))
    as (rq1 & r1 & Hrq1 & Hr1 & Hs1).
  destruct (headStatus_inv w this "meta" _ (Hst "meta" ltac:(set_solver)))
    as (rq2 & r2 & Hrq2 & Hr2 & Hs2).
  destruct (headStatus_inv w this "tree" _ (Hst "tree" ltac:(set_solver)))
    as (rq3 & r3 & Hrq3 & Hr3 & Hs3).
  unfold Dataset_exists, bind.
  rewrite (_exists_answered w this "main" rq1 r1 e Hrq1 Hr1), Hs1.
  destruct (Z.eqb (st "main") 200); [done|].
  unfold all, bind, promiseAll2.
  rewrite (_exists_answered w this "meta" rq2 r2 _ Hrq2 Hr2), Hs2.
  rewrite (_exists_answered w this "tree" rq3 r3 _ Hrq3 Hr3), Hs3.
  simpl. by destruct (Z.eqb (st "meta") 200), (Z.eqb (st "tree") 200).
Qed.

(** In [sources.js] every dataset class answers [exists()] with the method
    of [Dataset]. *)
Lemma exists_of_dataset (this : Resource) :
  isDatasetClass (class this) = true -> exists_ this = Dataset_exists this.
Proof. intros Hclass. unfold exists_. by rewrite Hclass. Qed.

(** C2. For a dataset whose HEAD requests for [main], [meta] and [tree] are
    answered with the statuses [st], [Dataset.exists()] is true when [main]
    is 200, and otherwise exactly when both [meta] and [tree] are 200. *)
Theorem Dataset_exists_statuses (w : World) (this : Resource)
    (st : string -> Z) :
  (forall ty, ty ∈ ["main"; "meta"; "tree"] ->
              headStatus w this ty = Some (st ty)) ->
  fst (run w (Dataset_exists this))
  = Ok (Z.eqb (st "main") 200
        || Z.eqb (st "meta") 200 && Z.eqb (st "tree") 200).
Proof. intros Hst. by apply Dataset_exists_answered. Qed.

Lemma Dataset_exists_statuses_witness :
  fst (run (Fixtures.world Fixtures.legacyOnly [])
         (Dataset_exists Fixtures.zika))
  = Ok true.
Proof.
  apply (Dataset_exists_statuses (Fixtures.world Fixtures.legacyOnly [])
           Fixtures.zika Fixtures.legacyStatuses).
  intros ty Hty.
  repeat (apply elem_of_cons in Hty as [->|Hty]; [reflexivity|]).
  by apply elem_of_nil in Hty.
Defined.

(** Main JSON and tree missing, meta present: the dataset does not exist,
    and all three requests were issued. *)
Example Dataset_exists_meta_only :
  run (Fixtures.world
         (fun rq => Ok {| status := if JS.endsWith (req_url rq) "_meta.json"
                                    then 200%Z else 404%Z;
                          json := None |}) [])
      (exists_ Fixtures.zika)
  = (Ok false,
     {| requests :=
          [ {| req_url := "http://data.nextstrain.org/zika.json";
               req_method := HEAD |};
            {| req_url := "http://data.nextstrain.org/zika_meta.json";
               req_method := HEAD |};
            {| req_url := "http://data.nextstrain.org/zika_tree.json";
               req_method := HEAD |} ];
        warnings := [] |}).
Proof. vm_compute. reflexivity. Qed.

(** The names of the subresources of a core dataset. *)
Example core_subresource_names :
  let flu := {| class := Dataset; source := CoreSource;
                pathParts := ["flu"; "seasonal"; "h3n2"; "ha"; "2y"] |} in
  match subresource flu "main", subresource flu "tip-frequencies" with
  | Ok main, Ok frequencies =>
      Subresource_baseName main = "flu_seasonal_h3n2_ha_2y.json"
      /\ Subresource_baseName frequencies
         = "flu_seasonal_h3n2_ha_2y_tip-frequencies.json"
  | _, _ => False
  end.
Proof. vm_compute. by split. Qed.

(** A type outside the valid types of the class is refused. *)
Example subresource_types_checked :
  subresource Fixtures.zika "bogus"
  = Err (GenericError "invalid Subresource type: bogus")
  /\ subresource Fixtures.urlDefinedNarrative "main"
     = Err (GenericError "invalid Subresource type: main").
Proof. split; reflexivity. Qed.

(** C3. The URL-defined dataset and narrative of [sources/fetch.js] assume
    existence: [exists()] is true and no request is issued, whatever the
    network would have answered. *)
Lemma FetchJs_UrlDefined_exists (w : World) (this : Resource) :
  class this = UrlDefinedDataset \/ class this = UrlDefinedNarrative ->
  run w (FetchJs.exists_ this) = (Ok true, noEffects).
Proof.
  intros [Hclass|Hclass]; unfold run, FetchJs.exists_; by rewrite Hclass.
Qed.

Lemma FetchJs_UrlDefined_exists_witness :
  run (Fixtures.world (Fixtures.answerAll 404) [])
      (FetchJs.exists_ Fixtures.urlDefined)
  = (Ok true, noEffects).
Proof.
  apply (FetchJs_UrlDefined_exists
           (Fixtures.world (Fixtures.answerAll 404) []) Fixtures.urlDefined).
  left. reflexivity.
Defined.

(** The earlier layout of the same classes in [sources.js] has no such
    override: there the URL-defined dataset inherits [Dataset.exists()] and
    the URL-defined narrative [Narrative.exists()], so that, where every HEAD
    request is answered with 404, the requests are issued and the answer is
    false. *)
Lemma UrlDefined_exists_sources_js_asks_network :
  run (Fixtures.world (Fixtures.answerAll 404) []) (exists_ Fixtures.urlDefined)
  = (Ok false,
     {| requests :=
          [ {| req_url := "https://example.org/data/zika.json";
               req_method := HEAD |};
            {| req_url := "https://example.org/data/zika_meta.json";
               req_method := HEAD |};
            {| req_url := "https://example.org/data/zika_tree.json";
               req_method := HEAD |} ];
        warnings := [] |})
  /\ run (Fixtures.world (Fixtures.answerAll 404) [])
         (exists_ Fixtures.urlDefinedNarrative)
     = (Ok false,
        {| requests :=
             [ {| req_url := "https://example.org/data/intro.md";
                  req_method := HEAD |} ];
           warnings := [] |}).
Proof. split; reflexivity. Qed.

(** ** Alias completion *)

(** C4. A dataset whose joined path is among the known paths of its source
    resolves to itself. *)
Theorem resolve_verbatim_hit (av : AvailableDatasets) (this : Resource)
    (known : list string) (n : nat) :
  paths av !! name (source this) = Some known ->
  JS.join "/" (pathParts this) ∈ known ->
  resolve (S n) av this = Some (Ok this).
Proof.
  intros Hknown Hin%includes_elem_of. simpl. by rewrite Hknown, Hin.
Qed.

Lemma resolve_verbatim_hit_witness :
  resolve 1 Fixtures.fluCache Fixtures.fluCanonical
  = Some (Ok Fixtures.fluCanonical).
Proof.
  apply (resolve_verbatim_hit Fixtures.fluCache Fixtures.fluCanonical
           ["flu/seasonal/h3n2/ha/2y"; "zika"] 0).
  - vm_compute. reflexivity.
  - vm_compute. apply list_elem_of_here.
Defined.

(** Resolving what [resolve] returned returns it unchanged, however the
    first call ended. *)
Corollary resolve_idempotent (av : AvailableDatasets) (this result_ : Resource)
    (n m : nat) :
  resolve n av this = Some (Ok result_) ->
  resolve (S m) av result_ = Some (Ok result_).
Proof.
  intros Hres%resolve_fixpoint.
  apply (resolve_fuel_mono av 1 _ _ Hres). lia.
Qed.

Example resolve_flu_seasonal :
  resolve 4 Fixtures.fluCache Fixtures.fluSeasonal
  = Some (Ok Fixtures.fluCanonical).
Proof. vm_compute. reflexivity. Qed.

(** C5. [resolve()] returns or throws whatever the cache holds: a number of
    nested calls computed from the defaults of the source always suffices,
    and more calls than that change nothing. *)
Theorem resolve_terminates (av : AvailableDatasets) (this : Resource) :
  exists out : result Resource,
    forall n, resolveDepth av this <= n -> resolve n av this = Some out.
Proof.
  assert (exists out, resolve (resolveDepth av this) av this = Some out)
    as [out Hout].
  { unfold resolveDepth.
    destruct (defaults av !! name (source this)) as [ofSource|] eqn:Hd.
    - apply resolve_enough_fuel. intros ofSource' Hd'.
      rewrite Hd in Hd'. injection Hd' as <-. lia.
    - simpl. rewrite Hd.
      destruct (paths av !! name (source this)) as [known|]; [|eauto].
      destruct (JS.includes known _); eauto. }
  exists out. intros n Hn. by apply (resolve_fuel_mono av _ _ _ Hout).
Qed.

Example resolve_pingPong :
  resolve (resolveDepth Fixtures.pingPong Fixtures.aliasA)
    Fixtures.pingPong Fixtures.aliasA
  = Some (Ok {| class := Dataset; source := CoreSource;
                pathParts := ["a"; "b"; "a"; "b"] |}).
Proof. vm_compute. reflexivity. Qed.

(** With defaults for the source that hold no segment for the joined path,
    a dataset that is not a known path resolves to itself. *)
Lemma resolve_no_default (av : AvailableDatasets) (this : Resource)
    (known : list string) (ofSource : gmap string string) (n : nat) :
  paths av !! name (source this) = Some known ->
  JS.join "/" (pathParts this) ∉ known ->
  defaults av !! name (source this) = Some ofSource ->
  ofSource !! JS.join "/" (pathParts this) = None ->
  resolve (S n) av this = Some (Ok this).
Proof.
  intros Hknown Hnotin Hd Hnone. simpl. rewrite Hknown.
  destruct (JS.includes known _) eqn:Hin.
  { by apply includes_elem_of in Hin. }
  by rewrite Hd, Hnone.
Qed.

(** Without defaults for the source, the lookup of the next segment reads a
    property of [undefined]. *)
Lemma resolve_no_defaults_entry (av : AvailableDatasets) (this : Resource)
    (known : list string) (n : nat) :
  paths av !! name (source this) = Some known ->
  JS.join "/" (pathParts this) ∉ known ->
  defaults av !! name (source this) = None ->
  resolve (S n) av this
  = Some (Err (readOfUndefined (JS.join "/" (pathParts this)))).
Proof.
  intros Hknown Hnotin Hd. simpl. rewrite Hknown.
  destruct (JS.includes known _) eqn:Hin.
  { by apply includes_elem_of in Hin. }
  by rewrite Hd.
Qed.

(** C6. Where the core source has known paths but the defaults hold no
    entry for it, resolving a dataset that is not a known path throws a
    [TypeError] instead of returning the dataset. *)
Theorem resolve_without_defaults_entry_throws :
  forall n,
    resolve (S n) Fixtures.noDefaults Fixtures.flu
    = Some (Err (TypeError
                   "Cannot read properties of undefined (reading 'flu')")).
Proof.
  intros n.
  apply (resolve_no_defaults_entry Fixtures.noDefaults Fixtures.flu ["zika"] n).
  - vm_compute. reflexivity.
  - vm_compute. intros Hin. apply list_elem_of_In in Hin.
    destruct Hin as [Heq|[]]. discriminate.
  - vm_compute. reflexivity.
Qed.

(** C10. A dataset [resolve()] returns has the source of the dataset it was
    called on, and its path segments start with those of that dataset. *)
Theorem resolve_appends_only (av : AvailableDatasets)
    (this result_ : Resource) (n : nat) :
  resolve n av this = Some (Ok result_) ->
  source result_ = source this
  /\ exists suffix, pathParts result_ = pathParts this ++ suffix.
Proof. intros Hres. by apply (resolve_extends av n) in Hres as (_ & ? & ?). Qed.

Lemma resolve_appends_only_witness :
  source Fixtures.fluCanonical = source Fixtures.fluSeasonal
  /\ exists suffix,
      pathParts Fixtures.fluCanonical = pathParts Fixtures.fluSeasonal ++ suffix.
Proof.
  apply (resolve_appends_only Fixtures.fluCache Fixtures.fluSeasonal
           Fixtures.fluCanonical 4).
  vm_compute. reflexivity.
Defined.

(** ** Listings *)

Lemma isSuccess_false (response : Response) :
  status response <> 200%Z -> status response <> 304%Z ->
  isSuccess response = false.
Proof.
  intros H200 H304. unfold isSuccess.
  apply Z.eqb_neq in H200, H304. by rewrite H200, H304.
Qed.

(** A 404 from the contents API: the narratives of a core source and the
    datasets of a community source throw [NotFound]; the narratives of a
    community source are an empty listing and nothing is logged. *)
Lemma listing_not_found (w : World) (av : AvailableDatasets)
    (op : GitHubListing) (response : Response) (e : Effects) :
  fetch_response w (listingRequest w op) = Ok response ->
  status response = 404%Z ->
  runListing av op w e
  = (match op with
     | CommunityNarratives _ => Ok []
     | _ => Err NotFound
     end, issue (listingRequest w op) e).
Proof.
  intros Hanswer H404.
  destruct op as [[]|c|c]; simpl in *;
    unfold CoreSource_availableNarratives, CommunitySource_availableDatasets,
      CommunitySource_availableNarratives, bind, ask, fetch, isSuccess;
    simpl; rewrite Hanswer, H404; reflexivity.
Qed.

(** Any status other than 200, 304 and 404: one line is logged and the
    listing is empty. *)
Lemma listing_degraded (w : World) (av : AvailableDatasets)
    (op : GitHubListing) (response : Response) (e : Effects) :
  fetch_response w (listingRequest w op) = Ok response ->
  status response <> 404%Z ->
  status response <> 200%Z ->
  status response <> 304%Z ->
  runListing av op w e
  = (Ok [], warned (listingWarning w op response)
              (issue (listingRequest w op) e)).
Proof.
  intros Hanswer H404 H200 H304.
  pose proof (isSuccess_false response H200 H304) as Hfail.
  apply Z.eqb_neq in H404.
  destruct op as [[]|c|c]; simpl in *;
    unfold CoreSource_availableNarratives, CommunitySource_availableDatasets,
      CommunitySource_availableNarratives, bind, ask, fetch, warn;
    simpl; rewrite Hanswer, ?H404, Hfail; simpl; rewrite ?H404; reflexivity.
Qed.

(** C9, as the code has it.  When the contents API answers a listing
    request with 404, [availableNarratives()] of the core sources and
    [availableDatasets()] of a community source throw [NotFound], while
    [availableNarratives()] of a community source returns the empty list
    and logs nothing; when it answers with any status other than 200, 304
    and 404, each of the three logs one line and returns the empty list. *)
Theorem github_listing_failure_policy (w : World) (av : AvailableDatasets)
    (op : GitHubListing) (response : Response) (e : Effects) :
  fetch_response w (listingRequest w op) = Ok response ->
  (status response = 404%Z ->
   runListing av op w e
   = (match op with
      | CommunityNarratives _ => Ok []
      | _ => Err NotFound
      end, issue (listingRequest w op) e))
  /\ (status response <> 404%Z ->
      status response <> 200%Z ->
      status response <> 304%Z ->
      runListing av op w e
      = (Ok [], warned (listingWarning w op response)
                  (issue (listingRequest w op) e))).
Proof.
  intros Hanswer. split.
  - by apply listing_not_found.
  - by apply listing_degraded.
Qed.

Lemma github_listing_failure_policy_witness :
  runListing Fixtures.fluCache (CommunityDatasets Fixtures.communityTest)
    (Fixtures.world (Fixtures.answerAll 404) []) noEffects
  = (Err NotFound,
     issue (listingRequest (Fixtures.world (Fixtures.answerAll 404) [])
              (CommunityDatasets Fixtures.communityTest)) noEffects).
Proof.
  apply (proj1 (github_listing_failure_policy
                  (Fixtures.world (Fixtures.answerAll 404) [])
                  Fixtures.fluCache
                  (CommunityDatasets Fixtures.communityTest)
                  {| status := 404; json := None |} noEffects eq_refl)).
  reflexivity.
Defined.

(** C9, as stated, fails for the narratives of a community source: a 404
    from the contents API is not raised to the caller but answered with the
    empty list, and no line is logged. *)
Lemma community_narratives_404_not_raised :
  run (Fixtures.world (Fixtures.answerAll 404) [])
      (availableNarratives (CommunitySource Fixtures.communityTest))
  = (Ok [],
     {| requests :=
          [ {| req_url := "https://api.github.com/repos/nextstrain/community-test/contents/narratives?ref=master";
               req_method := GET |} ];
        warnings := [] |})
  /\ fst (run (Fixtures.world (Fixtures.answerAll 404) [])
            (availableNarratives (CommunitySource Fixtures.communityTest)))
     <> Err NotFound.
Proof. split; [reflexivity | discriminate]. Qed.

Example community_narratives_listed :
  fst (run (Fixtures.world
              (fun _ => Ok {| status := 200;
                              json := Some (JListing
                                [ {| entry_name := "README.md"; entry_type := "file" |};
                                  {| entry_name := "community-test_intro-to-narratives.md";
                                     entry_type := "file" |};
                                  {| entry_name := "community-test_test_fixture.md";
                                     entry_type := "file" |};
                                  {| entry_name := "other_one.md"; entry_type := "file" |};
                                  {| entry_name := "community-test_dir.md";
                                     entry_type := "dir" |} ]) |}) [])
         (availableNarratives (CommunitySource Fixtures.communityTest)))
  = Ok ["intro-to-narratives"; "test/fixture"].
Proof. vm_compute. reflexivity. Qed.

(** ** Descriptive information *)

(** A listing whose first failing page comes after pages that succeeded:
    the error is logged and rejects [_listObjects]. *)
Lemma eachPage_error (this : Source) (err : Error)
    (rest : list (result (list string))) (w : World) :
  forall (before : list (list string)) (contents : list string) (e : Effects),
    eachPage this (map Ok before ++ Err err :: rest) contents w e
    = (Err err,
       warned ["Could not list S3 objects for group '" +:+ name this
               +:+ "'" +:+ newline +:+ errMessage err] e).
Proof.
  induction before as [|data before IH]; intros contents e; simpl.
  - reflexivity.
  - apply IH.
Qed.

(** A listing error makes the [try] block of [getInfo()] fail. *)
Lemma getInfo_try_listing_error (this : Source) (g : Group) (w : World)
    (before : list (list string)) (err : Error)
    (rest : list (result (list string))) (e : Effects) :
  listObjectsV2 w (bucket g) = map Ok before ++ Err err :: rest ->
  fst (S3Source_getInfo_try this g w e) = Err err.
Proof.
  intros Hpages.
  unfold S3Source_getInfo_try, _listObjects, bind, ask. simpl.
  rewrite Hpages. by rewrite eachPage_error.
Qed.

Lemma eachPage_ok (this : Source) (w : World) :
  forall (pages : list (list string)) (contents : list string) (e : Effects),
    eachPage this (map Ok pages) contents w e
    = (Ok (contents ++ concat pages), e).
Proof.
  induction pages as [|data pages IH]; intros contents e; simpl.
  - unfold ret. by rewrite app_nil_r.
  - rewrite IH. by rewrite <- app_assoc.
Qed.

(** An overview that is listed but cannot be fetched makes the [try] block
    fail. *)
Lemma getInfo_try_missing_object (this : Source) (g : Group) (w : World)
    (pages : list (list string)) (err : Error) (e : Effects) :
  listObjectsV2 w (bucket g) = map Ok pages ->
  "group-overview.md" ∈ concat pages ->
  getObject w (bucket g) "group-overview.md" = Err err ->
  fst (S3Source_getInfo_try this g w e) = Err err.
Proof.
  intros Hpages Hin%includes_elem_of Hmissing.
  unfold S3Source_getInfo_try, _listObjects, bind, ask. simpl.
  rewrite Hpages, eachPage_ok. simpl.
  destruct (JS.includes (concat pages) "group-logo.png"); simpl;
    rewrite Hin; unfold getAndDecompressObject, bind, ask, lift; simpl;
    by rewrite Hmissing.
Qed.

(** An overview whose front matter has no title makes the [try] block
    fail. *)
Lemma getInfo_try_untitled (this : Source) (g : Group) (w : World)
    (pages : list (list string)) (object : S3Object) (fm : FrontMatter)
    (e : Effects) :
  listObjectsV2 w (bucket g) = map Ok pages ->
  "group-overview.md" ∈ concat pages ->
  getObject w (bucket g) "group-overview.md" = Ok object ->
  ContentEncoding object = None ->
  loadFront w (Body object) = Ok fm ->
  truthyValue (fm_title fm) = false ->
  fst (S3Source_getInfo_try this g w e)
  = Err (GenericError "The overview file requires `title` in the frontmatter.").
Proof.
  intros Hpages Hin%includes_elem_of Hobject Hplain Hfm Htitle.
  unfold S3Source_getInfo_try, _listObjects, bind, ask. simpl.
  rewrite Hpages, eachPage_ok. simpl.
  destruct (JS.includes (concat pages) "group-logo.png"); simpl;
    rewrite Hin; unfold getAndDecompressObject, bind, ask, lift; simpl;
    rewrite Hobject, Hplain; simpl;
    unfold parseOverviewMarkdown, bind, ask, lift; simpl;
    by rewrite Hfm, Htitle.
Qed.

(** C8. [getInfo()] of every source resolves to a record and never throws.
    When the [try] block of an S3 source fails with [err], the record is the
    fallback: it carries an [error] naming [err], the generic title of the
    group, and [showDatasets] and [showNarratives] set to true. *)
Theorem getInfo_never_raises (w : World) (this : Source) (e : Effects) :
  (exists info e', getInfo this w e = (Ok info, e'))
  /\ (forall g err e',
        this = PublicGroupSource g \/ this = PrivateGroupSource g ->
        S3Source_getInfo_try this g w e = (Err err, e') ->
        exists info,
          getInfo this w e = (Ok info, e')
          /\ error info
             = Some ("Error in custom group info: " +:+ errMessage err)
          /\ title info = VString (groupTitle this)
          /\ showDatasets info = VBool true
          /\ showNarratives info = VBool true).
Proof.
  split.
  - destruct this as [| |c|authority|g|g]; simpl; unfold ret; eauto;
      unfold S3Source_getInfo, tryCatch;
      destruct (S3Source_getInfo_try _ g w e) as [[info|err] e'];
      unfold ret; eauto.
  - intros g err e' [->| ->] Htry; simpl;
      unfold S3Source_getInfo, tryCatch; rewrite Htry;
      (eexists; split; [reflexivity|]); by repeat split.
Qed.

Lemma getInfo_never_raises_witness :
  exists info,
    getInfo (PrivateGroupSource Fixtures.blab)
      (Fixtures.world (Fixtures.answerAll 200) [Err Fixtures.accessDenied])
      noEffects
    = (Ok info,
       warned ["Could not list S3 objects for group 'blab'" +:+ newline
               +:+ "Access Denied"] noEffects)
    /\ error info = Some "Error in custom group info: Access Denied"
    /\ title info = VString (groupTitle (PrivateGroupSource Fixtures.blab))
    /\ showDatasets info = VBool true
    /\ showNarratives info = VBool true.
Proof.
  apply (proj2 (getInfo_never_raises
                  (Fixtures.world (Fixtures.answerAll 200)
                     [Err Fixtures.accessDenied])
                  (PrivateGroupSource Fixtures.blab) noEffects)
           Fixtures.blab Fixtures.accessDenied).
  - right. reflexivity.
  - reflexivity.
Defined.

(** ** More facts about the JavaScript helpers *)

Section StringFacts.

Lemma substring_all (s : string) : String.substring 0 (String.length s) s = s.
Proof. induction s as [|c s IH]; simpl; [done | by rewrite IH]. Qed.

Lemma substring_skip (a b : string) (n m : nat) :
  String.substring (String.length a + n) m (a +:+ b) = String.substring n m b.
Proof. induction a as [|c a IH]; [done|]. simpl. apply IH. Qed.

Lemma substring_head (a b : string) :
  String.substring 0 (String.length a) (a +:+ b) = a.
Proof.
  induction a as [|c a IH]; simpl.
  - by destruct b.
  - change (String c a +:+ b) with (String c (a +:+ b)). by rewrite IH.
Qed.

Lemma drop_append (a b : string) : JS.drop (String.length a) (a +:+ b) = b.
Proof.
  unfold JS.drop. rewrite length_append.
  replace (String.length a + String.length b - String.length a)
    with (String.length b) by lia.
  rewrite <- (Nat.add_0_r (String.length a)) at 1.
  rewrite substring_skip. apply substring_all.
Qed.

(** Whether a string ends with a suffix is decided by its last characters. *)
Lemma endsWith_append (a b suf : string) :
  String.length b = String.length suf ->
  JS.endsWith (a +:+ b) suf = String.eqb b suf.
Proof.
  intros Hlen. unfold JS.endsWith. rewrite length_append, <- Hlen.
  replace (String.length a + String.length b - String.length b)
    with (String.length a) by lia.
  rewrite drop_append.
  by replace (String.length b <=? String.length a + String.length b)
    with true by (symmetry; apply Nat.leb_le; lia).
Qed.

Lemma endsWith_suffix (a suf : string) : JS.endsWith (a +:+ suf) suf = true.
Proof. rewrite endsWith_append; [apply String.eqb_refl | done]. Qed.

Lemma stripSuffix_append (a suf : string) :
  JS.stripSuffix suf (a +:+ suf) = a.
Proof.
  unfold JS.stripSuffix. rewrite endsWith_suffix, length_append.
  replace (String.length a + String.length suf - String.length suf)
    with (String.length a) by lia.
  apply substring_head.
Qed.

Lemma prefix_append (a b : string) : String.prefix a (a +:+ b) = true.
Proof.
  induction a as [|c a IH]; [by destruct b|].
  change (String c a +:+ b) with (String c (a +:+ b)). simpl.
  by destruct (ascii_dec c c).
Qed.

Lemma removeFirst_unfold (pat s : string) :
  JS.removeFirst pat s
  = if String.prefix pat s then JS.drop (String.length pat) s
    else match s with
         | EmptyString => EmptyString
         | String c s' => String c (JS.removeFirst pat s')
         end.
Proof. by destruct s. Qed.

(** Removing a pattern the string starts with leaves the rest. *)
Lemma removeFirst_prefix (pat s : string) : JS.removeFirst pat (pat +:+ s) = s.
Proof. rewrite removeFirst_unfold, prefix_append. apply drop_append. Qed.

Lemma stripPrefix_append (pre s : string) :
  JS.stripPrefix pre (pre +:+ s) = s.
Proof.
  unfold JS.stripPrefix, JS.startsWith. rewrite prefix_append.
  apply drop_append.
Qed.

(** A prefix test that fails on a string without the pattern's first
    character at its head. *)
Lemma stripPrefix_other (pre s : string) :
  String.prefix pre s = false -> JS.stripPrefix pre s = s.
Proof. intros Hno. unfold JS.stripPrefix, JS.startsWith. by rewrite Hno. Qed.

Lemma split_nonempty (c : ascii) (s : string) : JS.split c s <> [].
Proof.
  induction s as [|a s IH]; simpl; [done|].
  destruct (Ascii.eqb a c); [done|]. by destruct (JS.split c s).
Qed.

(** Joining the pieces of a split with the separator gives the string
    back. *)
Lemma join_split (c : ascii) (s : string) :
  JS.join (String c "") (JS.split c s) = s.
Proof.
  induction s as [|a s IH]; [done|]. simpl.
  destruct (Ascii.eqb a c) eqn:Hac.
  - apply Ascii.eqb_eq in Hac. subst a.
    pose proof (split_nonempty c s) as Hne.
    destruct (JS.split c s) as [|h t] eqn:Hsplit; [done|].
    change (JS.join (String c "") ("" :: h :: t))
      with ("" +:+ String c "" +:+ JS.join (String c "") (h :: t)).
    by rewrite IH.
  - pose proof (split_nonempty c s) as Hne.
    destruct (JS.split c s) as [|h t] eqn:Hsplit; [done|].
    destruct t as [|h' t'].
    + simpl in *. by rewrite IH.
    + change (JS.join (String c "") (String a h :: h' :: t'))
        with (String a h +:+ String c "" +:+ JS.join (String c "") (h' :: t')).
      change (JS.join (String c "") (h :: h' :: t'))
        with (h +:+ String c "" +:+ JS.join (String c "") (h' :: t')) in IH.
      by rewrite <- IH.
Qed.

(** A piece of a split holds no separator: splitting it again changes
    nothing. *)
Lemma split_piece (c : ascii) (s : string) :
  forall p, p ∈ JS.split c s -> JS.split c p = [p].
Proof.
  induction s as [|a s IH]; intros p Hp; simpl in Hp.
  - apply list_elem_of_singleton in Hp. by subst p.
  - destruct (Ascii.eqb a c) eqn:Hac.
    + apply elem_of_cons in Hp as [->|Hp]; [done | by apply IH].
    + pose proof (split_nonempty c s) as Hne.
      destruct (JS.split c s) as [|h t] eqn:Hsplit; [done|].
      apply elem_of_cons in Hp as [->|Hp].
      * simpl. rewrite Hac. rewrite (IH h); [done|]. apply list_elem_of_here.
      * apply IH. by apply list_elem_of_further.
Qed.

(** Splitting after a piece without separator. *)
Lemma split_append (c : ascii) (p q : string) :
  JS.split c p = [p] ->
  JS.split c (p +:+ String c q) = p :: JS.split c q.
Proof.
  revert q. induction p as [|a p IH]; intros q Hp.
  - simpl. by rewrite Ascii.eqb_refl.
  - simpl in Hp. change (String a p +:+ String c q)
      with (String a (p +:+ String c q)). simpl.
    destruct (Ascii.eqb a c); [discriminate|].
    pose proof (split_nonempty c p) as Hne.
    destruct (JS.split c p) as [|h t] eqn:Hsplit; [done|].
    injection Hp as -> ->.
    by rewrite (IH q eq_refl).
Qed.

End StringFacts.

Lemma endsWith_append_long (a b suf : string) :
  String.length suf <= String.length b ->
  JS.endsWith (a +:+ b) suf = JS.endsWith b suf.
Proof.
  intros Hlen. unfold JS.endsWith, JS.drop. rewrite !length_append.
  replace (String.length suf <=? String.length a + String.length b)
    with true by (symmetry; apply Nat.leb_le; lia).
  replace (String.length suf <=? String.length b)
    with true by (symmetry; by apply Nat.leb_le).
  replace (String.length a + String.length b - String.length suf)
    with (String.length a + (String.length b - String.length suf)) by lia.
  rewrite substring_skip.
  by replace (String.length a + String.length b
              - (String.length a + (String.length b - String.length suf)))
    with (String.length b - (String.length b - String.length suf)) by lia.
Qed.

(** ** Subresources *)

Lemma new_Subresource_Ok (sc : SubresourceClass) (r : Resource) (ty : string) :
  (exists sub,
      new_Subresource sc r ty = Ok sub /\ resource sub = r /\ type sub = ty)
  <-> ty ∈ validTypes sc.
Proof.
  unfold new_Subresource. rewrite <- includes_elem_of.
  destruct (JS.includes (validTypes sc) ty); simpl; split; try done.
  - intros _. eauto.
  - by intros (sub & ? & _).
Qed.

Lemma new_Subresource_shape (sc : SubresourceClass) (r : Resource)
    (ty : string) (sub : Subresource) :
  new_Subresource sc r ty = Ok sub ->
  sub = {| subclass := sc; resource := r; type := ty |}.
Proof.
  unfold new_Subresource.
  destruct (JS.includes (validTypes sc) ty); simpl; congruence.
Qed.

Lemma new_Subresource_Err (sc : SubresourceClass) (r : Resource) (ty : string)
    (err : Error) :
  new_Subresource sc r ty = Err err ->
  err = GenericError ("invalid Subresource type: " +:+ ty).
Proof.
  unfold new_Subresource.
  destruct (JS.includes (validTypes sc) ty); simpl; congruence.
Qed.

(** X1. [resource.subresource(type)] succeeds exactly for the types valid for
    the kind of the resource (the five dataset types, or [md] for a
    narrative); the subresource then records the resource and the type, and
    any other type is refused with the error naming it. *)
Theorem subresource_valid_types (this : Resource) (ty : string) :
  ((exists sub,
       subresource this ty = Ok sub /\ resource sub = this /\ type sub = ty)
   <-> (if isDatasetClass (class this)
        then ty ∈ ["main"; "root-sequence"; "tip-frequencies"; "meta"; "tree"]
        else ty = "md"))
  /\ (forall err,
        subresource this ty = Err err ->
        err = GenericError ("invalid Subresource type: " +:+ ty)).
Proof.
  unfold subresource. split.
  - destruct (class this); cbn [isDatasetClass];
      rewrite new_Subresource_Ok; cbn [validTypes]; try done;
      apply list_elem_of_singleton.
  - intros err. destruct (class this); apply new_Subresource_Err.
Qed.

(** X2. The subresources of a dataset or narrative that a core source
    builds are fetched from different hosts: every dataset file is resolved
    against the data host of the source, every narrative file against the raw
    content of the narratives repository at the branch of the source. *)
Theorem core_urls_by_kind (w : World) (s : Source) (parts : list string)
    (r : Resource) (ty : string) (sub : Subresource) (method : Method) :
  s = CoreSource \/ s = CoreStagingSource ->
  dataset s parts = Ok r \/ narrative s parts = Ok r ->
  subresource r ty = Ok sub ->
  run w (url sub method)
  = (Ok (URL_toString w (Subresource_baseName sub)
           (if isDatasetClass (class r) then baseUrl s
            else "https://raw.githubusercontent.com/nextstrain/narratives/"
                 +:+ template (source_branch s) +:+ "/")),
     noEffects).
Proof.
  intros Hs Hr Hsub.
  assert (r = {| class := class r; source := s; pathParts := parts |}
          /\ (class r = Dataset \/ class r = Narrative)) as [Hshape Hclass].
  { destruct Hs as [-> | ->], Hr as [Hr|Hr]; simpl in Hr;
      apply new_Resource_Ok in Hr; subst r; simpl; auto. }
  unfold subresource in Hsub. unfold run, url.
  destruct Hclass as [Hc|Hc]; rewrite Hc in Hsub |- *;
    apply new_Subresource_shape in Hsub; subst sub;
    unfold Subresource_baseName; simpl; rewrite Hshape; simpl.
  - assert (Hjson : forall stem, JS.endsWith (stem +:+ ".json") ".md" = false).
    { intros stem. by rewrite endsWith_append_long by (simpl; lia). }
    destruct (String.eqb ty "main").
    + destruct Hs as [-> | ->]; simpl; unfold ask; by rewrite Hjson.
    + rewrite <- !append_assoc.
      destruct Hs as [-> | ->]; simpl; unfold ask; by rewrite Hjson.
  - destruct Hs as [-> | ->]; simpl; unfold ask; by rewrite endsWith_suffix.
Qed.

Lemma core_urls_by_kind_witness :
  run (Fixtures.world (Fixtures.answerAll 200) [])
      (url Samples.h3n2Frequencies GET)
  = (Ok "http://data.nextstrain.org/flu_seasonal_h3n2_ha_2y_tip-frequencies.json",
     noEffects).
Proof.
  apply (core_urls_by_kind (Fixtures.world (Fixtures.answerAll 200) [])
           CoreSource ["flu"; "seasonal"; "h3n2"; "ha"; "2y"]
           Samples.h3n2 "tip-frequencies" Samples.h3n2Frequencies GET).
  - left. reflexivity.
  - left. reflexivity.
  - reflexivity.
Defined.

(** X3. The files of a URL-defined dataset: the main file is the name the
    caller gave; for a name ending in [.json] a sidecar puts its type before
    the extension; for any other name the type is appended. *)
Theorem urlDefined_sidecar_names (this : Resource) (ty : string)
    (sub : Subresource) :
  class this = UrlDefinedDataset ->
  subresource this ty = Ok sub ->
  (ty = "main" -> Subresource_baseName sub = JS.join "/" (pathParts this))
  /\ (ty <> "main" ->
      forall stem,
        JS.join "/" (pathParts this) = stem +:+ ".json" ->
        Subresource_baseName sub = stem +:+ "_" +:+ ty +:+ ".json")
  /\ (ty <> "main" ->
      JS.endsWith (JS.join "/" (pathParts this)) ".json" = false ->
      Subresource_baseName sub = JS.join "/" (pathParts this) +:+ "_" +:+ ty).
Proof.
  intros Hclass Hsub.
  unfold subresource in Hsub. rewrite Hclass in Hsub.
  apply new_Subresource_shape in Hsub. subst sub.
  unfold Subresource_baseName, baseName, baseParts. simpl. rewrite Hclass.
  repeat split.
  - by intros ->.
  - intros Hty%String.eqb_neq stem Hstem. rewrite Hty, Hstem.
    by rewrite endsWith_suffix, stripSuffix_append.
  - intros Hty%String.eqb_neq Hplain. by rewrite Hty, Hplain.
Qed.

Lemma urlDefined_sidecar_names_witness :
  Subresource_baseName Samples.fetchedTree
  = "builds/zika" +:+ "_" +:+ "tree" +:+ ".json".
Proof.
  apply (proj1 (proj2 (urlDefined_sidecar_names Samples.fetched "tree"
                         Samples.fetchedTree eq_refl eq_refl))).
  - discriminate.
  - reflexivity.
Defined.

(** ** Factories *)

Lemma factory_Err (s : Source) (parts : list string) (err : Error) :
  dataset s parts = Err err \/ narrative s parts = Err err ->
  err = NoResourcePathError /\ parts = [] /\ forall c, s <> CommunitySource c.
Proof.
  intros [H|H]; destruct s; simpl in H;
    apply new_Resource_Err in H as [-> H']; simpl in H'; by try congruence.
Qed.

Lemma factory_empty (s : Source) :
  (forall c, s <> CommunitySource c) ->
  dataset s [] = Err NoResourcePathError
  /\ narrative s [] = Err NoResourcePathError.
Proof. intros Hnc. destruct s; try done. by destruct (Hnc c). Qed.

Lemma factory_Ok (s : Source) (parts : list string) (r : Resource) :
  dataset s parts = Ok r \/ narrative s parts = Ok r ->
  source r = s /\ pathParts r = parts.
Proof.
  intros [H|H]; destruct s; simpl in H; apply new_Resource_Ok in H;
    by subst r.
Qed.

(** X4. [source.dataset(pathParts)] and [source.narrative(pathParts)] throw
    only [NoResourcePathError], and exactly when the path is empty and the
    source is not a community source; otherwise they build a resource of the
    asked kind that holds the source and the path unchanged. *)
Theorem factories_by_source (s : Source) (parts : list string) :
  (forall err, dataset s parts = Err err \/ narrative s parts = Err err ->
               err = NoResourcePathError)
  /\ (dataset s parts = Err NoResourcePathError
      <-> (forall c, s <> CommunitySource c) /\ parts = [])
  /\ (narrative s parts = Err NoResourcePathError
      <-> (forall c, s <> CommunitySource c) /\ parts = [])
  /\ (forall r, dataset s parts = Ok r ->
        source r = s /\ pathParts r = parts /\ isDatasetClass (class r) = true)
  /\ (forall r, narrative s parts = Ok r ->
        source r = s /\ pathParts r = parts /\ isDatasetClass (class r) = false).
Proof.
  split; [|split; [|split; [|split]]].
  - intros err H. by apply factory_Err in H as [-> _].
  - split.
    + intros H. by destruct (factory_Err s parts _ (or_introl H)) as (_ & ? & ?).
    + intros [Hnc ->]. by apply factory_empty.
  - split.
    + intros H. by destruct (factory_Err s parts _ (or_intror H)) as (_ & ? & ?).
    + intros [Hnc ->]. by apply factory_empty.
  - intros r H. destruct (factory_Ok s parts r (or_introl H)) as [? ?].
    repeat split; [done..|].
    destruct s; simpl in H; apply new_Resource_Ok in H; by subst r.
  - intros r H. destruct (factory_Ok s parts r (or_intror H)) as [? ?].
    repeat split; [done..|].
    destruct s; simpl in H; apply new_Resource_Ok in H; by subst r.
Qed.

(** ** Requests of the existence checks *)

Section OnlyHeads.

Lemma effects_eta (e : Effects) :
  e = {| requests := requests e ++ []; warnings := warnings e |}.
Proof. destruct e. simpl. by rewrite app_nil_r. Qed.

Lemma onlyHeads_ret {A} (a : A) : onlyHeads 0 (ret a).
Proof. intros w e. exists []. simpl. split; [apply effects_eta | by split]. Qed.

Lemma onlyHeads_weaken {A} (n k : nat) (m : M A) :
  n <= k -> onlyHeads n m -> onlyHeads k m.
Proof.
  intros Hle Hm w e. destruct (Hm w e) as (new & ? & ? & ?).
  exists new. repeat split; [done..|lia].
Qed.

Lemma onlyHeads_bind {A B} (n k : nat) (m : M A) (f : A -> M B) :
  onlyHeads n m -> (forall a, onlyHeads k (f a)) -> onlyHeads (n + k) (bind m f).
Proof.
  intros Hm Hf w e. unfold bind.
  destruct (Hm w e) as (new1 & Heq1 & Hall1 & Hlen1).
  destruct (m w e) as [[a|err] e1]; simpl in Heq1.
  - destruct (Hf a w e1) as (new2 & Heq2 & Hall2 & Hlen2).
    exists (new1 ++ new2). rewrite Heq2, Heq1. simpl.
    rewrite app_assoc. repeat split; [by apply Forall_app|].
    rewrite length_app. lia.
  - exists new1. simpl. repeat split; [done..|lia].
Qed.

Lemma onlyHeads_promiseAll2 {A B} (n k : nat) (p : M A) (q : M B) :
  onlyHeads n p -> onlyHeads k q -> onlyHeads (n + k) (promiseAll2 p q).
Proof.
  intros Hp Hq w e. unfold promiseAll2.
  destruct (Hp w e) as (new1 & Heq1 & Hall1 & Hlen1).
  destruct (p w e) as [ra e1]; simpl in Heq1.
  destruct (Hq w e1) as (new2 & Heq2 & Hall2 & Hlen2).
  destruct (q w e1) as [rb e2]; simpl in Heq2.
  exists (new1 ++ new2).
  assert (e2 = {| requests := requests e ++ new1 ++ new2;
                  warnings := warnings e |}) as Heq.
  { rewrite Heq2, Heq1. simpl. by rewrite app_assoc. }
  destruct ra, rb; simpl; (split; [done|]);
    (split; [by apply Forall_app | rewrite length_app; lia]).
Qed.

Lemma onlyHeads_exists (this : Resource) (ty : string) :
  onlyHeads 1 (_exists this ty).
Proof.
  intros w e. unfold _exists, bind, lift.
  destruct (subresource this ty) as [sub|err]; simpl.
  2:{ exists []. split; [apply effects_eta | by split; [|simpl; lia]]. }
  unfold url.
  destruct (urlFor_pure (source (resource sub)) (Subresource_baseName sub)
              HEAD w) as [u Hu].
  rewrite Hu. unfold fetch.
  exists [{| req_url := u; req_method := HEAD |}].
  destruct (fetch_response w _); simpl; by repeat constructor.
Qed.

End OnlyHeads.

(** X5. Whatever the network answers, [exists()] of a resource of
    [sources.js] issues HEAD requests only, at most three for a dataset and
    at most one for a narrative, and logs nothing. *)
Theorem exists_issues_heads_only (this : Resource) :
  onlyHeads (if isDatasetClass (class this) then 3 else 1) (exists_ this).
Proof.
  unfold exists_. destruct (isDatasetClass (class this)).
  - unfold Dataset_exists.
    apply (onlyHeads_bind 1 2); [apply onlyHeads_exists|].
    intros [|]; [apply (onlyHeads_weaken 0); [lia | apply onlyHeads_ret]|].
    apply (onlyHeads_bind 2 0); [|intros; apply onlyHeads_ret].
    unfold all.
    apply (onlyHeads_bind 2 0); [|intros; apply onlyHeads_ret].
    apply (onlyHeads_promiseAll2 1 1); apply onlyHeads_exists.
  - unfold Narrative_exists.
    apply (onlyHeads_bind 1 0); [apply onlyHeads_exists|].
    intros; apply onlyHeads_ret.
Qed.

(** One HEAD check, whatever the answer. *)
Lemma _exists_run (w : World) (this : Resource) (ty : string) (rq : Request)
    (e : Effects) :
  headRequest w this ty = Some rq ->
  _exists this ty w e = (answered w rq, issue rq e).
Proof.
  unfold headRequest, _exists, bind, lift, run, answered.
  destruct (subresource this ty) as [sub|]; [|discriminate].
  unfold url.
  destruct (urlFor_pure (source (resource sub)) (Subresource_baseName sub)
              HEAD w) as [u Hu].
  rewrite !Hu. simpl. intros [= <-].
  unfold fetch. by destruct (fetch_response w _).
Qed.

(** X6. [Dataset.exists()] stops after the request for the main file when
    that request fails or is answered with 200; otherwise the requests for
    [meta] and [tree] are both issued, in this order, whatever the answer to
    the first of them. *)
Theorem Dataset_exists_requests (w : World) (this : Resource) (e : Effects)
    (main meta tree : Request) :
  headRequest w this "main" = Some main ->
  headRequest w this "meta" = Some meta ->
  headRequest w this "tree" = Some tree ->
  match answered w main with
  | Ok true => Dataset_exists this w e = (Ok true, issue main e)
  | Ok false =>
      snd (Dataset_exists this w e) = issue tree (issue meta (issue main e))
  | Err err => Dataset_exists this w e = (Err err, issue main e)
  end.
Proof.
  intros Hmain Hmeta Htree. unfold Dataset_exists, bind.
  rewrite (_exists_run w this "main" main e Hmain).
  destruct (answered w main) as [[|]|err]; try reflexivity.
  unfold all, bind, promiseAll2.
  rewrite (_exists_run w this "meta" meta _ Hmeta).
  rewrite (_exists_run w this "tree" tree _ Htree).
  by destruct (answered w meta), (answered w tree).
Qed.

Lemma Dataset_exists_requests_witness :
  snd (Dataset_exists Fixtures.zika
         (Fixtures.world (Fixtures.answerAll 404) []) noEffects)
  = issue {| req_url := "http://data.nextstrain.org/zika_tree.json";
             req_method := HEAD |}
      (issue {| req_url := "http://data.nextstrain.org/zika_meta.json";
                req_method := HEAD |}
         (issue {| req_url := "http://data.nextstrain.org/zika.json";
                   req_method := HEAD |} noEffects)).
Proof.
  apply (Dataset_exists_requests (Fixtures.world (Fixtures.answerAll 404) [])
           Fixtures.zika noEffects
           {| req_url := "http://data.nextstrain.org/zika.json";
              req_method := HEAD |}
           {| req_url := "http://data.nextstrain.org/zika_meta.json";
              req_method := HEAD |}
           {| req_url := "http://data.nextstrain.org/zika_tree.json";
              req_method := HEAD |});
    reflexivity.
Defined.

(** X7. [Narrative.exists()] issues the HEAD request for the [md] file and
    nothing else; it is true exactly when the answer is 200, and rejects when
    the request fails. *)
Theorem Narrative_exists_md (w : World) (this : Resource) (e : Effects)
    (md : Request) :
  headRequest w this "md" = Some md ->
  Narrative_exists this w e = (answered w md, issue md e).
Proof.
  intros Hmd. unfold Narrative_exists, bind.
  rewrite (_exists_run w this "md" md e Hmd).
  by destruct (answered w md) as [[|]|err].
Qed.

Lemma Narrative_exists_md_witness :
  Narrative_exists Samples.intro
    (Fixtures.world (Fixtures.answerAll 200) []) noEffects
  = (Ok true,
     issue {| req_url := "https://raw.githubusercontent.com/nextstrain/narratives/master/intro-to-narratives.md";
              req_method := HEAD |} noEffects).
Proof.
  apply (Narrative_exists_md (Fixtures.world (Fixtures.answerAll 200) [])
           Samples.intro noEffects
           {| req_url := "https://raw.githubusercontent.com/nextstrain/narratives/master/intro-to-narratives.md";
              req_method := HEAD |}).
  reflexivity.
Defined.

(** ** More on alias completion *)

Section ResolveMore.

Variable av : AvailableDatasets.

(** With defaults for the source, no call of [resolve] throws. *)
Lemma resolve_with_defaults_no_throw (n : nat) :
  forall (this : Resource) (err : Error),
    is_Some (defaults av !! name (source this)) ->
    resolve n av this <> Some (Err err).
Proof.
  induction n as [|n IH]; intros this err [ofSource Hd]; [done|].
  simpl. rewrite Hd.
  destruct (paths av !! name (source this)) as [known|]; [|done].
  destruct (JS.includes known _); [done|].
  destruct (ofSource !! _) as [next|]; [|done].
  destruct (JS.truthy next); [|done].
  rewrite new_Resource_snoc. apply IH. simpl. eauto.
Qed.

Lemma resolve_throw_inv (n : nat) (this : Resource) (err : Error) :
  resolve n av this = Some (Err err) ->
  exists known,
    paths av !! name (source this) = Some known
    /\ (JS.join "/" (pathParts this) ∉ known)
    /\ defaults av !! name (source this) = None
    /\ err = readOfUndefined (JS.join "/" (pathParts this)).
Proof.
  destruct n as [|n]; [done|]. simpl.
  destruct (paths av !! name (source this)) as [known|]; [|done].
  destruct (JS.includes known _) eqn:Hin; [done|].
  destruct (defaults av !! name (source this)) as [ofSource|] eqn:Hd.
  - destruct (ofSource !! _) as [next|]; [|done].
    destruct (JS.truthy next); [|done].
    rewrite new_Resource_snoc. intros Hres.
    exfalso. eapply resolve_with_defaults_no_throw; [|exact Hres].
    simpl. eauto.
  - intros [= <-]. exists known. split; [done|]. split; [|done].
    intros Hin'%includes_elem_of. congruence.
Qed.

(** The first call decides whether the dataset comes back itself. *)
Lemma resolve_self_or_longer (n : nat) (this result_ : Resource) :
  resolve n av this = Some (Ok result_) ->
  (resolve 1 av this = Some (Ok this) /\ result_ = this)
  \/ (resolve 1 av this = None
      /\ length (pathParts this) < length (pathParts result_)).
Proof.
  destruct n as [|n]; [done|]. simpl.
  destruct (paths av !! name (source this)) as [known|];
    [|intros [= <-]; by left].
  destruct (JS.includes known _); [intros [= <-]; by left|].
  destruct (defaults av !! name (source this)) as [ofSource|]; [|done].
  destruct (ofSource !! _) as [next|]; [|intros [= <-]; by left].
  destruct (JS.truthy next); [|intros [= <-]; by left].
  rewrite new_Resource_snoc.
  intros (_ & _ & suffix & Hp)%resolve_extends. simpl in Hp.
  right. split; [done|]. rewrite Hp, !length_app. simpl. lia.
Qed.

End ResolveMore.

(** With a stack of at least one frame, an overflow means that the first
    call went on to a nested call. *)
Lemma resolve_overflow_inv (av : AvailableDatasets) (n : nat)
    (this : Resource) :
  resolve (S n) av this = None ->
  is_Some (paths av !! name (source this))
  /\ is_Some (defaults av !! name (source this)).
Proof.
  simpl.
  destruct (paths av !! name (source this)) as [known|]; [|done].
  destruct (JS.includes known _); [done|].
  destruct (defaults av !! name (source this)) as [ofSource|]; [|done].
  eauto.
Qed.

(** X8. Apart from exhausting the call stack, [resolve()] throws in one
    situation only: the source has known paths, the joined path of the
    dataset is not one of them, and the defaults hold no entry for the
    source.  The error is the [TypeError] of reading the joined path off
    [undefined], raised in the first call; and the stack can be exhausted
    only when the cache holds both known paths and defaults for the
    source. *)
Theorem resolve_type_error_iff (av : AvailableDatasets) (this : Resource)
    (frames : nat) (err : Error) :
  (resolveOnStack (S frames) av this = Threw err
   <-> exists known,
         paths av !! name (source this) = Some known
         /\ (JS.join "/" (pathParts this) ∉ known)
         /\ defaults av !! name (source this) = None
         /\ err = readOfUndefined (JS.join "/" (pathParts this)))
  /\ (resolveOnStack (S frames) av this = StackOverflow ->
      is_Some (paths av !! name (source this))
      /\ is_Some (defaults av !! name (source this))).
Proof.
  unfold resolveOnStack. split; [split|].
  - destruct (resolve (S frames) av this) as [[dataset|err']|] eqn:Hres;
      try discriminate.
    intros [= ->]. by apply (resolve_throw_inv av (S frames)).
  - intros (known & Hknown & Hnotin & Hd & ->).
    by rewrite (resolve_no_defaults_entry av this known frames Hknown Hnotin Hd).
  - destruct (resolve (S frames) av this) as [[dataset|err']|] eqn:Hres;
      try discriminate.
    intros _. by apply (resolve_overflow_inv av frames).
Qed.

(** X10. Resolving is idempotent: a dataset that [resolve()] returned
    resolves to itself, whichever way the first call ended. *)
Theorem resolve_twice (av : AvailableDatasets) (this result_ : Resource)
    (n m : nat) :
  resolve n av this = Some (Ok result_) ->
  resolve (S m) av result_ = Some (Ok result_).
Proof.
  intros Hres%resolve_fixpoint.
  apply (resolve_fuel_mono av 1 _ _ Hres). lia.
Qed.

Lemma resolve_twice_witness :
  resolve 1 Fixtures.fluCache Fixtures.fluCanonical
  = Some (Ok Fixtures.fluCanonical).
Proof.
  apply (resolve_twice Fixtures.fluCache Fixtures.fluSeasonal
           Fixtures.fluCanonical 4 0).
  vm_compute. reflexivity.
Defined.

(** X11. Comparing a dataset with what [resolve()] returns tells whether it
    is an alias.  For a dataset whose joined path is not the name of a
    member of [Object.prototype], the result is the dataset itself exactly
    when the first call returns without following a default, and otherwise
    it has more path segments. *)
Theorem resolve_detects_alias (av : AvailableDatasets)
    (this result_ : Resource) (n : nat) :
  JS.join "/" (pathParts this) ∉ objectPrototypeProperties ->
  resolve n av this = Some (Ok result_) ->
  (result_ = this <-> resolve 1 av this = Some (Ok this))
  /\ (result_ <> this ->
      length (pathParts this) < length (pathParts result_)).
Proof.
  intros _ [[Hone ->]|[Hone Hlen]]%resolve_self_or_longer.
  - split; [done|]. by intros [].
  - split; [|done]. split.
    + intros ->. lia.
    + rewrite Hone. discriminate.
Qed.

Lemma resolve_detects_alias_witness :
  (Fixtures.fluCanonical = Fixtures.fluSeasonal
   <-> resolve 1 Fixtures.fluCache Fixtures.fluSeasonal
       = Some (Ok Fixtures.fluSeasonal))
  /\ (Fixtures.fluCanonical <> Fixtures.fluSeasonal ->
      length (pathParts Fixtures.fluSeasonal)
      < length (pathParts Fixtures.fluCanonical)).
Proof.
  apply (resolve_detects_alias Fixtures.fluCache Fixtures.fluSeasonal
           Fixtures.fluCanonical 4).
  - apply (bool_decide_unpack _). vm_compute. reflexivity.
  - vm_compute. reflexivity.
Defined.

(** X12. [resolve()] keeps the class of the dataset, and what it returns for
    a dataset that the constructor accepted is again a dataset the
    constructor accepts. *)
Theorem resolve_keeps_class (av : AvailableDatasets) (cl : ResourceClass)
    (src : Source) (parts : list string) (this result_ : Resource) (n : nat) :
  new_Resource cl src parts = Ok this ->
  resolve n av this = Some (Ok result_) ->
  class result_ = cl
  /\ new_Resource cl src (pathParts result_) = Ok result_.
Proof.
  intros Hnew Hres.
  pose proof (new_Resource_Ok _ _ _ _ Hnew) as ->.
  destruct (resolve_extends av n _ _ Hres) as (Hc & Hs & suffix & Hp).
  simpl in *. split; [done|].
  destruct result_ as [cl' src' parts']. simpl in *. subst cl' src' parts'.
  destruct suffix as [|x suffix _] using rev_ind.
  - by rewrite app_nil_r.
  - rewrite app_assoc. apply new_Resource_snoc.
Qed.

Lemma resolve_keeps_class_witness :
  class Fixtures.fluCanonical = Dataset
  /\ new_Resource Dataset CoreSource (pathParts Fixtures.fluCanonical)
     = Ok Fixtures.fluCanonical.
Proof.
  apply (resolve_keeps_class Fixtures.fluCache Dataset CoreSource
           ["flu"; "seasonal"] Fixtures.fluSeasonal Fixtures.fluCanonical 4).
  - reflexivity.
  - vm_compute. reflexivity.
Defined.

(** ** Listings and the names of files *)

Lemma join_cons (sep p : string) (rest : list string) :
  rest <> [] -> JS.join sep (p :: rest) = p +:+ sep +:+ JS.join sep rest.
Proof. by destruct rest. Qed.

Section CleanPieces.

Lemma substring_parts (s : string) :
  forall k, k <= String.length s ->
    String.substring 0 k s
      +:+ String.substring k (String.length s - k) s = s.
Proof.
  induction s as [|a s IH]; intros [|k] Hk; simpl in *; try done; try lia.
  - by rewrite substring_all.
  - change (String a (String.substring 0 k s)
            +:+ String.substring k (String.length s - k) s)
      with (String a (String.substring 0 k s
                      +:+ String.substring k (String.length s - k) s)).
    rewrite IH; [done | lia].
Qed.

(** A string that ends with a suffix is what is left of it, then the
    suffix. *)
Lemma endsWith_parts (s suf : string) :
  JS.endsWith s suf = true -> s = JS.stripSuffix suf s +:+ suf.
Proof.
  intros Hends. unfold JS.stripSuffix. rewrite Hends.
  unfold JS.endsWith, JS.drop in Hends.
  apply andb_true_iff in Hends as [Hle%Nat.leb_le Heq%String.eqb_eq].
  pose proof (substring_parts s (String.length s - String.length suf)
                ltac:(lia)) as Hparts.
  rewrite Heq in Hparts. by symmetry.
Qed.

Lemma split_cons_inv (c a : ascii) (s : string) :
  JS.split c (String a s) = [String a s] ->
  Ascii.eqb a c = false /\ JS.split c s = [s].
Proof.
  simpl. destruct (Ascii.eqb a c); [discriminate|].
  pose proof (split_nonempty c s).
  destruct (JS.split c s) as [|h t]; [done|].
  by intros [= -> ->].
Qed.

Lemma split_cons_clean (c a : ascii) (s : string) :
  Ascii.eqb a c = false -> JS.split c s = [s] ->
  JS.split c (String a s) = [String a s].
Proof. intros Hac Hs. simpl. by rewrite Hac, Hs. Qed.

(** The pieces of a string without [c], split at any character, hold no
    [c]. *)
Lemma split_pieces_clean (c d : ascii) (s : string) :
  JS.split c s = [s] ->
  forall piece, piece ∈ JS.split d s -> JS.split c piece = [piece].
Proof.
  induction s as [|a s IH]; intros Hclean piece Hpiece.
  - simpl in Hpiece. apply list_elem_of_singleton in Hpiece. by subst piece.
  - apply split_cons_inv in Hclean as [Hac Hs]. simpl in Hpiece.
    destruct (Ascii.eqb a d).
    + apply elem_of_cons in Hpiece as [->|Hpiece]; [done | by apply IH].
    + pose proof (split_nonempty d s).
      destruct (JS.split d s) as [|h t]; [done|].
      apply elem_of_cons in Hpiece as [->|Hpiece].
      * apply split_cons_clean; [done|]. apply IH; [done|].
        apply list_elem_of_here.
      * apply IH; [done|]. by apply list_elem_of_further.
Qed.

(** The front of a string without [c] holds no [c]. *)
Lemma split_front_clean (c : ascii) (a b : string) :
  JS.split c (a +:+ b) = [a +:+ b] -> JS.split c a = [a].
Proof.
  induction a as [|x a IH]; [done|].
  change (String x a +:+ b) with (String x (a +:+ b)).
  intros [Hxc Hrest]%split_cons_inv.
  apply split_cons_clean; [done | by apply IH].
Qed.

(** Splitting what was joined gives the pieces back when no piece holds the
    separator. *)
Lemma split_join (c : ascii) (parts : list string) :
  parts <> [] ->
  (forall p, p ∈ parts -> JS.split c p = [p]) ->
  JS.split c (JS.join (String c "") parts) = parts.
Proof.
  induction parts as [|p rest IH]; [done|]. intros _ Hclean.
  destruct rest as [|q rest].
  - simpl. apply Hclean. apply list_elem_of_here.
  - change (JS.join (String c "") (p :: q :: rest))
      with (p +:+ String c (JS.join (String c "") (q :: rest))).
    rewrite split_append by (apply Hclean; apply list_elem_of_here).
    rewrite IH; [done | done |].
    intros p' Hp'. apply Hclean. by apply list_elem_of_further.
Qed.

(** The narrative asked for under the listed path of a file without slash
    has the pieces of the stem as its path. *)
Lemma listed_path_pieces (stem : string) :
  JS.split "/" stem = [stem] ->
  JS.split "/" (JS.join "/" (JS.split "_" stem)) = JS.split "_" stem.
Proof.
  intros Hclean. apply (split_join "/").
  - apply split_nonempty.
  - by apply split_pieces_clean.
Qed.

End CleanPieces.

(** X13. What [availableNarratives()] of a group lists, and that asking for
    a listed path reads the listed file.  When the bucket listing arrives,
    the listed paths are exactly the paths of the keys that end in [.md] and
    are not [group-overview.md]; and for such a key without slash, the
    narrative built from the segments of its listed path has this key as
    its [md] file. *)
Theorem group_narratives_round_trip (this : Source) (g : Group) (w : World)
    (e : Effects) (pages : list (list string)) :
  this = PublicGroupSource g \/ this = PrivateGroupSource g ->
  listObjectsV2 w (bucket g) = map Ok pages ->
  exists listed,
    availableNarratives this w e = (Ok listed, e)
    /\ (forall p,
          p ∈ listed
          <-> exists key,
                key ∈ concat pages
                /\ key <> "group-overview.md"
                /\ JS.endsWith key ".md" = true
                /\ p = narrativePath key)
    /\ (forall key,
          key ∈ concat pages ->
          key <> "group-overview.md" ->
          JS.endsWith key ".md" = true ->
          JS.split "/" key = [key] ->
          narrativePath key ∈ listed
          /\ exists r sub,
               narrative this (JS.split "/" (narrativePath key)) = Ok r
               /\ subresource r "md" = Ok sub
               /\ Subresource_baseName sub = key).
Proof.
  intros Hthis Hpages.
  assert (forall p,
             p ∈ map narrativePath
                   (List.filter (fun file => JS.endsWith file ".md")
                      (List.filter
                         (fun file => negb (String.eqb file "group-overview.md"))
                         (concat pages)))
             <-> exists key,
                   key ∈ concat pages
                   /\ key <> "group-overview.md"
                   /\ JS.endsWith key ".md" = true
                   /\ p = narrativePath key) as Hlisted.
  { intros p. rewrite list_elem_of_In, in_map_iff. split.
    - intros (key & <- & Hin).
      apply filter_In in Hin as (Hin & Hmd).
      apply filter_In in Hin as (Hin & Hnot%negb_true_iff%String.eqb_neq).
      exists key. by rewrite list_elem_of_In.
    - intros (key & Hin & Hnot & Hmd & ->).
      exists key. split; [done|].
      rewrite !filter_In, <- list_elem_of_In.
      split; [|done]. split; [done|].
      by apply negb_true_iff, String.eqb_neq. }
  eexists. split; [|split; [exact Hlisted|]].
  - destruct Hthis as [-> | ->]; simpl; unfold _listObjects, bind, ask;
      simpl; by rewrite Hpages, eachPage_ok.
  - intros key Hin Hnot Hmd Hclean. split.
    { apply Hlisted. by exists key. }
    set (stem := JS.stripSuffix ".md" key).
    assert (key = stem +:+ ".md") as Hkey by (by apply endsWith_parts).
    assert (JS.split "/" stem = [stem]) as Hstem.
    { apply (split_front_clean "/" stem ".md"). by rewrite <- Hkey. }
    unfold narrativePath. fold stem. rewrite (listed_path_pieces stem Hstem).
    pose proof (split_nonempty "_" stem) as Hne.
    set (r := {| class := Narrative; source := this;
                 pathParts := JS.split "_" stem |}).
    exists r,
      {| subclass := NarrativeSubresource; resource := r; type := "md" |}.
    split.
    { assert (new_Resource Narrative this (JS.split "_" stem) = Ok r) as Hnew.
      { unfold new_Resource, baseParts. simpl.
        by destruct (JS.split "_" stem). }
      by destruct Hthis as [-> | ->]. }
    split; [reflexivity|].
    unfold Subresource_baseName, baseName, baseParts. simpl.
    by rewrite (join_split "_" stem).
Qed.

Lemma group_narratives_round_trip_witness :
  exists listed,
    availableNarratives (PublicGroupSource Fixtures.blab) Samples.narrated
      noEffects
    = (Ok listed, noEffects)
    /\ (forall p,
          p ∈ listed
          <-> exists key,
                key ∈ concat [["zika.json"; "test_fixture.md"];
                              ["group-overview.md"]]
                /\ key <> "group-overview.md"
                /\ JS.endsWith key ".md" = true
                /\ p = narrativePath key)
    /\ (forall key,
          key ∈ concat [["zika.json"; "test_fixture.md"];
                        ["group-overview.md"]] ->
          key <> "group-overview.md" ->
          JS.endsWith key ".md" = true ->
          JS.split "/" key = [key] ->
          narrativePath key ∈ listed
          /\ exists r sub,
               narrative (PublicGroupSource Fixtures.blab)
                 (JS.split "/" (narrativePath key)) = Ok r
               /\ subresource r "md" = Ok sub
               /\ Subresource_baseName sub = key).
Proof.
  apply (group_narratives_round_trip (PublicGroupSource Fixtures.blab)
           Fixtures.blab Samples.narrated noEffects
           [["zika.json"; "test_fixture.md"]; ["group-overview.md"]]).
  - left. reflexivity.
  - reflexivity.
Defined.

(** The listing of the witness, computed. *)
Example group_narratives_listed :
  fst (run Samples.narrated (availableNarratives (PublicGroupSource Fixtures.blab)))
  = Ok ["test/fixture"].
Proof. vm_compute. reflexivity. Qed.

(** X14. What [availableNarratives()] of a community source lists, and that
    asking for a listed path reads the listed file.  For a contents listing
    answered with 200 or 304, the listed paths are exactly those of the
    entries that are files, end in [.md], are not [README.md] and start with
    the repository name; and for such a file named [repo_stem.md], with a
    stem without slash, the community narrative built from the segments of
    its listed path has [narratives/repo_stem.md] as its [md] file. *)
Theorem community_narratives_round_trip (c : Community) (w : World)
    (e : Effects) (response : Response) (files : list ContentsEntry) :
  fetch_response w (listingRequest w (CommunityNarratives c)) = Ok response ->
  status response = 200%Z \/ status response = 304%Z ->
  json response = Some (JListing files) ->
  let listedPath fileName :=
    narrativePath (JS.stripPrefix "_" (JS.removeFirst (repoName c) fileName)) in
  exists listed,
    availableNarratives (CommunitySource c) w e
    = (Ok listed, issue (listingRequest w (CommunityNarratives c)) e)
    /\ (forall p,
          p ∈ listed
          <-> exists file,
                file ∈ files
                /\ entry_type file = "file"
                /\ entry_name file <> "README.md"
                /\ JS.endsWith (entry_name file) ".md" = true
                /\ JS.startsWith (entry_name file) (repoName c) = true
                /\ p = listedPath (entry_name file))
    /\ (forall file stem,
          file ∈ files ->
          entry_type file = "file" ->
          entry_name file <> "README.md" ->
          entry_name file = repoName c +:+ "_" +:+ stem +:+ ".md" ->
          JS.split "/" stem = [stem] ->
          listedPath (entry_name file) ∈ listed
          /\ exists r sub,
               narrative (CommunitySource c)
                 (JS.split "/" (listedPath (entry_name file))) = Ok r
               /\ subresource r "md" = Ok sub
               /\ Subresource_baseName sub
                  = "narratives/" +:+ entry_name file).
Proof.
  intros Hanswer Hstatus Hjson listedPath.
  assert (isSuccess response = true) as Hok
    by (unfold isSuccess; destruct Hstatus as [-> | ->]; reflexivity).
  assert (forall p,
             p ∈ map (fun file => listedPath (entry_name file))
                   (List.filter
                      (fun file => JS.startsWith (entry_name file) (repoName c))
                      (List.filter
                         (fun file => JS.endsWith (entry_name file) ".md")
                         (List.filter
                            (fun file =>
                               negb (String.eqb (entry_name file) "README.md"))
                            (List.filter isFile files))))
             <-> exists file,
                   file ∈ files
                   /\ entry_type file = "file"
                   /\ entry_name file <> "README.md"
                   /\ JS.endsWith (entry_name file) ".md" = true
                   /\ JS.startsWith (entry_name file) (repoName c) = true
                   /\ p = listedPath (entry_name file)) as Hlisted.
  { intros p. rewrite list_elem_of_In, in_map_iff. split.
    - intros (file & <- & Hin).
      apply filter_In in Hin as (Hin & Hrepo).
      apply filter_In in Hin as (Hin & Hmd).
      apply filter_In in Hin as (Hin & Hnot%negb_true_iff%String.eqb_neq).
      apply filter_In in Hin as (Hin & Hfile%String.eqb_eq).
      exists file. by rewrite list_elem_of_In.
    - intros (file & Hin & Hfile & Hnot & Hmd & Hrepo & ->).
      exists file. split; [done|].
      rewrite !filter_In, <- list_elem_of_In.
      split; [|done]. split; [|done]. split.
      + split; [done|]. unfold isFile. by apply String.eqb_eq.
      + by apply negb_true_iff, String.eqb_neq. }
  eexists. split; [|split; [exact Hlisted|]].
  - simpl.
    unfold CommunitySource_availableNarratives, bind, ask, fetch, listingOf.
    simpl in Hanswer. simpl. rewrite Hanswer, Hok, Hjson. reflexivity.
  - intros file stem Hin Hfile Hnot Hname Hstem.
    assert (entry_name file = (repoName c +:+ "_" +:+ stem) +:+ ".md") as Hmd
      by (by rewrite Hname, !append_assoc).
    assert (listedPath (entry_name file) = JS.join "/" (JS.split "_" stem))
      as Hpath.
    { unfold listedPath, narrativePath. rewrite Hname.
      by rewrite removeFirst_prefix, stripPrefix_append, stripSuffix_append. }
    split.
    { apply Hlisted. exists file.
      split; [done|]. split; [done|]. split; [done|]. split.
      - rewrite Hmd. apply endsWith_suffix.
      - split; [|done]. unfold JS.startsWith. rewrite Hname.
        apply prefix_append. }
    rewrite Hpath, (listed_path_pieces stem Hstem).
    pose proof (split_nonempty "_" stem) as Hne.
    set (r := {| class := CommunityNarrative; source := CommunitySource c;
                 pathParts := JS.split "_" stem |}).
    exists r,
      {| subclass := NarrativeSubresource; resource := r; type := "md" |}.
    split; [unfold narrative, new_Resource; reflexivity|].
    split; [reflexivity|].
    unfold Subresource_baseName, baseName, baseParts. simpl.
    rewrite (join_split "_" stem), Hname.
    destruct (JS.split "_" stem); [done|]. by rewrite !append_assoc.
Qed.

Lemma community_narratives_round_trip_witness :
  let listedPath fileName :=
    narrativePath
      (JS.stripPrefix "_"
         (JS.removeFirst (repoName Fixtures.communityTest) fileName)) in
  exists listed,
    availableNarratives (CommunitySource Fixtures.communityTest)
      (Fixtures.world
         (fun _ => Ok {| status := 200;
                         json := Some (JListing Samples.communityListing) |})
         [])
      noEffects
    = (Ok listed,
       issue (listingRequest
                (Fixtures.world
                   (fun _ => Ok {| status := 200;
                                   json := Some (JListing
                                                   Samples.communityListing) |})
                   [])
                (CommunityNarratives Fixtures.communityTest)) noEffects)
    /\ (forall p,
          p ∈ listed
          <-> exists file,
                file ∈ Samples.communityListing
                /\ entry_type file = "file"
                /\ entry_name file <> "README.md"
                /\ JS.endsWith (entry_name file) ".md" = true
                /\ JS.startsWith (entry_name file)
                     (repoName Fixtures.communityTest) = true
                /\ p = listedPath (entry_name file))
    /\ (forall file stem,
          file ∈ Samples.communityListing ->
          entry_type file = "file" ->
          entry_name file <> "README.md" ->
          entry_name file
          = repoName Fixtures.communityTest +:+ "_" +:+ stem +:+ ".md" ->
          JS.split "/" stem = [stem] ->
          listedPath (entry_name file) ∈ listed
          /\ exists r sub,
               narrative (CommunitySource Fixtures.communityTest)
                 (JS.split "/" (listedPath (entry_name file))) = Ok r
               /\ subresource r "md" = Ok sub
               /\ Subresource_baseName sub
                  = "narratives/" +:+ entry_name file).
Proof.
  apply (community_narratives_round_trip Fixtures.communityTest
           (Fixtures.world
              (fun _ => Ok {| status := 200;
                              json := Some (JListing
                                              Samples.communityListing) |})
              [])
           noEffects
           {| status := 200; json := Some (JListing Samples.communityListing) |}
           Samples.communityListing).
  - reflexivity.
  - left. reflexivity.
  - reflexivity.
Defined.

(** X15. A listing operation on GitHub sends its one GET request and no
    other, whatever comes back, and logs at most one line. *)
Theorem listing_sends_one_request (w : World) (av : AvailableDatasets)
    (op : GitHubListing) (e : Effects) :
  exists lines,
    snd (runListing av op w e)
    = {| requests := requests e ++ [listingRequest w op];
         warnings := warnings e ++ lines |}
    /\ length lines <= 1.
Proof.
  assert (forall rq : list Request,
             exists lines : list (list string),
               {| requests := rq; warnings := warnings e |}
               = {| requests := rq; warnings := warnings e ++ lines |}
               /\ length lines <= 1) as Hsilent.
  { intros rq. exists []. rewrite app_nil_r. split; [done | simpl; lia]. }
  assert (forall (rq : list Request) (line : list string),
             exists lines : list (list string),
               {| requests := rq; warnings := warnings e ++ [line] |}
               = {| requests := rq; warnings := warnings e ++ lines |}
               /\ length lines <= 1) as Hline.
  { intros rq line. exists [line]. split; [done | simpl; lia]. }
  destruct op as [[]|c|c]; simpl;
    unfold CoreSource_availableNarratives, CommunitySource_availableDatasets,
      CommunitySource_availableNarratives, bind, ask, fetch, warn, listingOf;
    simpl;
    (destruct (fetch_response w _) as [response|err]; [|apply Hsilent]);
    destruct (Z.eqb (status response) 404);
    destruct (isSuccess response); simpl;
    try apply Hsilent; try apply Hline;
    destruct (json response) as [[files|b]|]; simpl; apply Hsilent.
Qed.

(** X16. [_listObjects()] reads every page: when all pages arrive, the keys
    of all of them are returned in order and nothing is logged; when a page
    fails, the error is logged once and rejects the listing, however many
    pages arrived before, and [availableDatasets()] and
    [availableNarratives()] of the group reject with it. *)
Theorem listObjects_all_or_nothing (this : Source) (g : Group) (w : World)
    (av : AvailableDatasets) (e : Effects) :
  this = PublicGroupSource g \/ this = PrivateGroupSource g ->
  (forall pages,
      listObjectsV2 w (bucket g) = map Ok pages ->
      _listObjects this g w e = (Ok (concat pages), e))
  /\ (forall before err rest,
        listObjectsV2 w (bucket g) = map Ok before ++ Err err :: rest ->
        let logged :=
          warned ["Could not list S3 objects for group '" +:+ name this
                  +:+ "'" +:+ newline +:+ errMessage err] e in
        _listObjects this g w e = (Err err, logged)
        /\ availableDatasets av this w e = (Err err, logged)
        /\ availableNarratives this w e = (Err err, logged)).
Proof.
  intros Hthis. split.
  - intros pages Hpages. unfold _listObjects, bind, ask. simpl.
    rewrite Hpages. by rewrite eachPage_ok.
  - intros before err rest Hpages logged.
    assert (_listObjects this g w e = (Err err, logged)) as Hlist.
    { unfold _listObjects, bind, ask. simpl.
      rewrite Hpages. by rewrite eachPage_error. }
    split; [done|].
    destruct Hthis as [-> | ->]; simpl; unfold bind; by rewrite Hlist.
Qed.

Lemma listObjects_all_or_nothing_witness :
  _listObjects (PublicGroupSource Fixtures.blab) Fixtures.blab
    (Fixtures.world (Fixtures.answerAll 200)
       [Ok ["a.json"]; Ok ["b.json"; "c.md"]]) noEffects
  = (Ok (concat [["a.json"]; ["b.json"; "c.md"]]), noEffects).
Proof.
  apply (proj1 (listObjects_all_or_nothing (PublicGroupSource Fixtures.blab)
                  Fixtures.blab
                  (Fixtures.world (Fixtures.answerAll 200)
                     [Ok ["a.json"]; Ok ["b.json"; "c.md"]])
                  Fixtures.fluCache noEffects (or_introl eq_refl))
           [["a.json"]; ["b.json"; "c.md"]]).
  reflexivity.
Defined.

(** ** More on descriptive information *)

Section LogsAtMost.

Lemma effects_eta' (e : Effects) :
  e = {| requests := requests e; warnings := warnings e ++ [] |}.
Proof. destruct e. simpl. by rewrite app_nil_r. Qed.

Lemma logsAtMost_pure {A} (r : World -> result A) :
  logsAtMost 0 (fun w e => (r w, e)).
Proof. intros w e. exists []. simpl. split; [apply effects_eta' | done]. Qed.

Lemma logsAtMost_ret {A} (a : A) : logsAtMost 0 (ret a).
Proof. apply (logsAtMost_pure (fun _ => Ok a)). Qed.

Lemma logsAtMost_throw {A} (err : Error) : logsAtMost 0 (@throw A err).
Proof. apply (logsAtMost_pure (fun _ => Err err)). Qed.

Lemma logsAtMost_lift {A} (r : result A) : logsAtMost 0 (lift r).
Proof. apply (logsAtMost_pure (fun _ => r)). Qed.

Lemma logsAtMost_ask {A} (f : World -> A) : logsAtMost 0 (ask f).
Proof. apply (logsAtMost_pure (fun w => Ok (f w))). Qed.

Lemma logsAtMost_warn (line : list string) : logsAtMost 1 (warn line).
Proof. intros w e. exists [line]. by split. Qed.

Lemma logsAtMost_weaken {A} (n k : nat) (m : M A) :
  n <= k -> logsAtMost n m -> logsAtMost k m.
Proof.
  intros Hle Hm w e. destruct (Hm w e) as (lines & ? & ?).
  exists lines. split; [done | lia].
Qed.

Lemma logsAtMost_bind {A B} (n k : nat) (m : M A) (f : A -> M B) :
  logsAtMost n m -> (forall a, logsAtMost k (f a)) ->
  logsAtMost (n + k) (bind m f).
Proof.
  intros Hm Hf w e. unfold bind.
  destruct (Hm w e) as (l1 & Heq1 & Hlen1).
  destruct (m w e) as [[a|err] e1]; simpl in Heq1.
  - destruct (Hf a w e1) as (l2 & Heq2 & Hlen2).
    exists (l1 ++ l2). rewrite Heq2, Heq1. simpl.
    rewrite app_assoc. split; [done|]. rewrite length_app. lia.
  - exists l1. simpl. split; [done | lia].
Qed.

Lemma logsAtMost_tryCatch {A} (n k : nat) (body : M A)
    (handler : Error -> M A) :
  logsAtMost n body -> (forall err, logsAtMost k (handler err)) ->
  logsAtMost (n + k) (tryCatch body handler).
Proof.
  intros Hm Hf w e. unfold tryCatch.
  destruct (Hm w e) as (l1 & Heq1 & Hlen1).
  destruct (body w e) as [[a|err] e1]; simpl in Heq1.
  - exists l1. simpl. split; [done | lia].
  - destruct (Hf err w e1) as (l2 & Heq2 & Hlen2).
    exists (l1 ++ l2). rewrite Heq2, Heq1. simpl.
    rewrite app_assoc. split; [done|]. rewrite length_app. lia.
Qed.

Lemma logsAtMost_eachPage (this : Source) (pages : list (result (list string))) :
  forall contents, logsAtMost 1 (eachPage this pages contents).
Proof.
  induction pages as [|[data|err] pages IH]; intros contents; simpl.
  - apply (logsAtMost_weaken 0); [lia | apply logsAtMost_ret].
  - apply IH.
  - apply (logsAtMost_bind 1 0); [apply logsAtMost_warn|].
    intros _. apply logsAtMost_throw.
Qed.

Lemma logsAtMost_listObjects (this : Source) (g : Group) :
  logsAtMost 1 (_listObjects this g).
Proof.
  unfold _listObjects.
  apply (logsAtMost_bind 0 1); [apply logsAtMost_ask|].
  intros pages. apply logsAtMost_eachPage.
Qed.

Lemma logsAtMost_getAndDecompressObject (g : Group) (key : string) :
  logsAtMost 0 (getAndDecompressObject g key).
Proof.
  unfold getAndDecompressObject.
  apply (logsAtMost_bind 0 0); [apply logsAtMost_ask|]. intros fetched.
  apply (logsAtMost_bind 0 0); [apply logsAtMost_lift|]. intros object.
  destruct (bool_decide _); [|apply logsAtMost_ret].
  apply (logsAtMost_bind 0 0); [apply logsAtMost_ask|]. intros unzipped.
  apply logsAtMost_lift.
Qed.

Lemma logsAtMost_parseOverviewMarkdown (md : string) :
  logsAtMost 0 (parseOverviewMarkdown md).
Proof.
  unfold parseOverviewMarkdown.
  apply (logsAtMost_bind 0 0); [apply logsAtMost_ask|]. intros parsed.
  apply (logsAtMost_bind 0 0); [apply logsAtMost_lift|]. intros fm.
  destruct (negb _); [apply logsAtMost_throw|].
  apply (logsAtMost_bind 0 0).
  - destruct (truthyValue (fm_website fm)); [|apply logsAtMost_ret].
    apply (logsAtMost_bind 0 0); [apply logsAtMost_lift|]. intros hasHttp.
    destruct (negb hasHttp); [apply logsAtMost_throw | apply logsAtMost_ret].
  - intros _.
    destruct (_ && _); [apply logsAtMost_throw|].
    destruct (_ && _); [apply logsAtMost_throw | apply logsAtMost_ret].
Qed.

Lemma logsAtMost_getInfo_try (this : Source) (g : Group) :
  logsAtMost 1 (S3Source_getInfo_try this g).
Proof.
  unfold S3Source_getInfo_try.
  apply (logsAtMost_bind 1 0); [apply logsAtMost_listObjects|].
  intros objectKeys.
  apply (logsAtMost_bind 0 0).
  - destruct (JS.includes objectKeys "group-logo.png");
      [|apply logsAtMost_ret].
    apply (logsAtMost_bind 0 0); [apply logsAtMost_ask|].
    intros signed. apply logsAtMost_ret.
  - intros logoSrc.
    destruct (JS.includes objectKeys "group-overview.md");
      [|apply logsAtMost_ret].
    apply (logsAtMost_bind 0 0); [apply logsAtMost_getAndDecompressObject|].
    intros overviewContent.
    apply (logsAtMost_bind 0 0); [apply logsAtMost_parseOverviewMarkdown|].
    intros [[[[[t b] ws] sd] sn] content]. apply logsAtMost_ret.
Qed.

End LogsAtMost.

(** X17. [getInfo()] never calls [fetch]: whatever a source reads of its
    bucket through the AWS SDK, the log of [fetch] requests is left as it
    was, and at most one line is logged (the failed listing of a group). *)
Theorem getInfo_never_fetches (this : Source) : logsAtMost 1 (getInfo this).
Proof.
  destruct this as [| |c|authority|g|g]; simpl;
    try (apply (logsAtMost_weaken 0); [lia | apply logsAtMost_ret]);
    unfold S3Source_getInfo;
    (apply (logsAtMost_tryCatch 1 0); [apply logsAtMost_getInfo_try|]);
    intros err; apply logsAtMost_ret.
Qed.

Lemma truthy_boolean (v : JSValue) :
  truthyValue v && negb (isBoolean v) = false <->
  (truthyValue v = true -> v = VBool true).
Proof.
  destruct (truthyValue v) eqn:Ht, (isBoolean v) eqn:Hb; simpl;
    split; try done.
  - intros _ _. destruct v as [| |[|]|n|s|items|]; by simpl in *.
  - intros Hv. specialize (Hv eq_refl). by subst v.
Qed.

(** What [parseOverviewMarkdown] returns for front matter it accepts. *)
Lemma parseOverviewMarkdown_accepted (md : string) (fm : FrontMatter)
    (w : World) (e : Effects) :
  loadFront w md = Ok fm ->
  acceptedFrontMatter fm ->
  parseOverviewMarkdown md w e
  = (Ok (fm_title fm, fm_byline fm, fm_website fm, fm_showDatasets fm,
         fm_showNarratives fm, crlfToLf (fm_content fm)), e).
Proof.
  intros Hfm (Htitle & Hweb & Hsd%truthy_boolean & Hsn%truthy_boolean).
  unfold parseOverviewMarkdown, bind, ask, lift, throw, ret.
  rewrite Hfm, Htitle. cbn [negb].
  destruct (truthyValue (fm_website fm)).
  - rewrite (Hweb eq_refl). cbn [negb]. by rewrite Hsd, Hsn.
  - by rewrite Hsd, Hsn.
Qed.

Ltac caseFlags fm Hsd Hsn :=
  destruct (truthyValue (fm_showDatasets fm)
            && negb (isBoolean (fm_showDatasets fm))) eqn:Hsd;
  [|destruct (truthyValue (fm_showNarratives fm)
              && negb (isBoolean (fm_showNarratives fm))) eqn:Hsn].

(** Front matter it does not accept makes it throw. *)
Lemma parseOverviewMarkdown_refused (md : string) (fm : FrontMatter)
    (w : World) (e : Effects) :
  loadFront w md = Ok fm ->
  ~ acceptedFrontMatter fm ->
  exists err, parseOverviewMarkdown md w e = (Err err, e).
Proof.
  intros Hfm Hno.
  unfold parseOverviewMarkdown, bind, ask, lift, throw, ret. rewrite Hfm.
  destruct (truthyValue (fm_title fm)) eqn:Htitle; cbn [negb]; [|eauto].
  destruct (truthyValue (fm_website fm)) eqn:Hweb.
  - destruct (valueIncludes (fm_website fm) "http") as [[|]|err] eqn:Hinc;
      cbn [negb]; [|eauto..].
    caseFlags fm Hsd Hsn; [eauto..|].
    destruct Hno.
    pose proof (proj1 (truthy_boolean _) Hsd).
    pose proof (proj1 (truthy_boolean _) Hsn).
    split; [done|]. split; [by rewrite ?Hweb|]. by split.
  - caseFlags fm Hsd Hsn; [eauto..|].
    destruct Hno.
    pose proof (proj1 (truthy_boolean _) Hsd).
    pose proof (proj1 (truthy_boolean _) Hsn).
    split; [done|]. split; [by rewrite ?Hweb|]. by split.
Qed.

Lemma parseOverviewMarkdown_Ok (md : string) (w : World) (e e' : Effects)
    (out : JSValue * JSValue * JSValue * JSValue * JSValue * string) :
  parseOverviewMarkdown md w e = (Ok out, e') ->
  exists fm,
    acceptedFrontMatter fm
    /\ out = (fm_title fm, fm_byline fm, fm_website fm, fm_showDatasets fm,
              fm_showNarratives fm, crlfToLf (fm_content fm)).
Proof.
  unfold parseOverviewMarkdown, bind, ask, lift, throw, ret.
  destruct (loadFront w md) as [fm|]; [|done].
  destruct (truthyValue (fm_title fm)) eqn:Htitle; cbn [negb]; [|done].
  destruct (truthyValue (fm_website fm)) eqn:Hweb.
  - destruct (valueIncludes (fm_website fm) "http") as [[|]|err] eqn:Hinc;
      cbn [negb]; [|done..].
    caseFlags fm Hsd Hsn; [done..|].
    intros [= <- _]. exists fm. split; [|done].
    pose proof (proj1 (truthy_boolean _) Hsd).
    pose proof (proj1 (truthy_boolean _) Hsn).
    split; [done|]. split; [by rewrite ?Hweb|]. by split.
  - caseFlags fm Hsd Hsn; [done..|].
    intros [= <- _]. exists fm. split; [|done].
    pose proof (proj1 (truthy_boolean _) Hsd).
    pose proof (proj1 (truthy_boolean _) Hsn).
    split; [done|]. split; [by rewrite ?Hweb|]. by split.
Qed.

(** X18. Every record [getInfo()] returns for a group has a truthy title;
    its [showDatasets] and [showNarratives] are never null or undefined and,
    when truthy, are the boolean true; a truthy website contains [http]. *)
Theorem group_info_invariants (w : World) (this : Source) (g : Group)
    (e e' : Effects) (info : Info) :
  this = PublicGroupSource g \/ this = PrivateGroupSource g ->
  getInfo this w e = (Ok info, e') ->
  truthyValue (title info) = true
  /\ isNullish (showDatasets info) = false
  /\ isNullish (showNarratives info) = false
  /\ (truthyValue (showDatasets info) = true -> showDatasets info = VBool true)
  /\ (truthyValue (showNarratives info) = true ->
      showNarratives info = VBool true)
  /\ (truthyValue (website info) = true ->
      valueIncludes (website info) "http" = Ok true).
Proof.
  intros Hthis Hinfo.
  assert (S3Source_getInfo this g w e = (Ok info, e')) as Hs3
    by (by destruct Hthis as [-> | ->]).
  clear Hinfo. unfold S3Source_getInfo, tryCatch in Hs3.
  destruct (S3Source_getInfo_try this g w e) as [[info'|err] e1] eqn:Htry.
  2:{ injection Hs3 as <- _. by repeat split. }
  injection Hs3 as -> _.
  unfold S3Source_getInfo_try, bind in Htry.
  destruct (_listObjects this g w e) as [[objectKeys|] e2]; [|done].
  destruct (JS.includes objectKeys "group-overview.md").
  2:{ destruct (JS.includes objectKeys "group-logo.png");
        injection Htry as <- _; by repeat split. }
  destruct (JS.includes objectKeys "group-logo.png");
    unfold ask, ret in Htry; cbv beta iota in Htry;
    (destruct (getAndDecompressObject g "group-overview.md" w e2)
       as [[content|] e3]; [|done]);
    (destruct (parseOverviewMarkdown content w e3) as [[out|] e4] eqn:Hparse;
       [|done]);
    apply parseOverviewMarkdown_Ok in Hparse
      as (fm & (Htitle & Hweb & Hsd & Hsn) & ->);
    injection Htry as <- _; simpl;
    (split; [done|]); (split; [by destruct (fm_showDatasets fm)|]);
    (split; [by destruct (fm_showNarratives fm)|]);
    (split; [destruct (isNullish (fm_showDatasets fm)); [done | apply Hsd]|]);
    (split; [destruct (isNullish (fm_showNarratives fm)); [done | apply Hsn]|]);
    done.
Qed.

Lemma group_info_invariants_witness :
  let info := S3Source_getInfo_fallback (PrivateGroupSource Fixtures.blab)
                Fixtures.accessDenied in
  truthyValue (title info) = true
  /\ isNullish (showDatasets info) = false
  /\ isNullish (showNarratives info) = false
  /\ (truthyValue (showDatasets info) = true -> showDatasets info = VBool true)
  /\ (truthyValue (showNarratives info) = true ->
      showNarratives info = VBool true)
  /\ (truthyValue (website info) = true ->
      valueIncludes (website info) "http" = Ok true).
Proof.
  apply (group_info_invariants
           (Fixtures.world (Fixtures.answerAll 200) [Err Fixtures.accessDenied])
           (PrivateGroupSource Fixtures.blab) Fixtures.blab noEffects
           (warned ["Could not list S3 objects for group 'blab'" +:+ newline
                    +:+ "Access Denied"] noEffects)).
  - right. reflexivity.
  - reflexivity.
Defined.

(** The keys of a listing that succeeded. *)
Lemma listObjects_Ok (this : Source) (g : Group) (w : World) (e : Effects)
    (pages : list (list string)) :
  listObjectsV2 w (bucket g) = map Ok pages ->
  _listObjects this g w e = (Ok (concat pages), e).
Proof.
  intros Hpages. unfold _listObjects, bind, ask. simpl.
  rewrite Hpages. by rewrite eachPage_ok.
Qed.

(** X19. A group whose bucket holds no [group-overview.md] gets the generic
    record without an error, whatever the other objects are; the avatar is
    the signed URL of [group-logo.png] when the bucket holds one. *)
Theorem group_info_without_overview (w : World) (this : Source) (g : Group)
    (e : Effects) (pages : list (list string)) :
  this = PublicGroupSource g \/ this = PrivateGroupSource g ->
  listObjectsV2 w (bucket g) = map Ok pages ->
  "group-overview.md" ∉ concat pages ->
  getInfo this w e
  = (Ok {| title := VString (groupTitle this);
           byline := VString groupByline;
           website := VNull;
           showDatasets := VBool true;
           showNarratives := VBool true;
           avatar :=
             if JS.includes (concat pages) "group-logo.png"
             then Some (getSignedUrl w "getObject" (bucket g) "group-logo.png")
             else None;
           overview := None;
           error := None |}, e).
Proof.
  intros Hthis Hpages Hnone.
  assert (JS.includes (concat pages) "group-overview.md" = false) as Hno.
  { destruct (JS.includes _ _) eqn:Hin; [|done].
    by apply includes_elem_of in Hin. }
  assert (getInfo this w e = S3Source_getInfo this g w e) as ->
    by (by destruct Hthis as [-> | ->]).
  unfold S3Source_getInfo, tryCatch, S3Source_getInfo_try, bind.
  rewrite (listObjects_Ok this g w e pages Hpages).
  destruct (JS.includes (concat pages) "group-logo.png");
    unfold ask, ret; cbv beta iota; by rewrite Hno.
Qed.

Lemma group_info_without_overview_witness :
  getInfo (PublicGroupSource Fixtures.blab)
    (Fixtures.world (Fixtures.answerAll 200)
       [Ok ["zika.json"]; Ok ["group-logo.png"]]) noEffects
  = (Ok {| title := VString (groupTitle (PublicGroupSource Fixtures.blab));
           byline := VString groupByline;
           website := VNull;
           showDatasets := VBool true;
           showNarratives := VBool true;
           avatar :=
             if JS.includes (concat [["zika.json"]; ["group-logo.png"]])
                  "group-logo.png"
             then Some (getSignedUrl
                          (Fixtures.world (Fixtures.answerAll 200)
                             [Ok ["zika.json"]; Ok ["group-logo.png"]])
                          "getObject" (bucket Fixtures.blab) "group-logo.png")
             else None;
           overview := None;
           error := None |}, noEffects).
Proof.
  apply (group_info_without_overview
           (Fixtures.world (Fixtures.answerAll 200)
              [Ok ["zika.json"]; Ok ["group-logo.png"]])
           (PublicGroupSource Fixtures.blab) Fixtures.blab noEffects
           [["zika.json"]; ["group-logo.png"]]).
  - left. reflexivity.
  - reflexivity.
  - vm_compute. intros Hin. apply list_elem_of_In in Hin.
    destruct Hin as [Heq|[Heq|[]]]; discriminate.
Defined.

(** X20. A group whose bucket holds an overview that can be fetched,
    decompressed when it is gzipped, and parsed: when the checks accept the
    front matter, the record carries its title, byline and website, the
    overview text with line ends normalised, no error, and [showDatasets]
    and [showNarratives] default to true where the front matter leaves them
    out; when they do not, the record carries an error. *)
Theorem group_info_with_overview (w : World) (this : Source) (g : Group)
    (e : Effects) (pages : list (list string)) (object : S3Object)
    (content : string) (fm : FrontMatter) :
  this = PublicGroupSource g \/ this = PrivateGroupSource g ->
  listObjectsV2 w (bucket g) = map Ok pages ->
  "group-overview.md" ∈ concat pages ->
  getObject w (bucket g) "group-overview.md" = Ok object ->
  (if bool_decide (ContentEncoding object = Some "gzip")
   then gunzipSync w (Body object)
   else Ok (Body object)) = Ok content ->
  loadFront w content = Ok fm ->
  (acceptedFrontMatter fm ->
   getInfo this w e
   = (Ok {| title := fm_title fm;
            byline := fm_byline fm;
            website := fm_website fm;
            showDatasets :=
              if isNullish (fm_showDatasets fm) then VBool true
              else fm_showDatasets fm;
            showNarratives :=
              if isNullish (fm_showNarratives fm) then VBool true
              else fm_showNarratives fm;
            avatar :=
              if JS.includes (concat pages) "group-logo.png"
              then Some (getSignedUrl w "getObject" (bucket g)
                           "group-logo.png")
              else None;
            overview := Some (crlfToLf (fm_content fm));
            error := None |}, e))
  /\ (~ acceptedFrontMatter fm ->
      exists err,
        getInfo this w e = (Ok (S3Source_getInfo_fallback this err), e)).
Proof.
  intros Hthis Hpages Hin%includes_elem_of Hobject Hcontent Hfm.
  assert (getInfo this w e = S3Source_getInfo this g w e) as ->
    by (by destruct Hthis as [-> | ->]).
  assert (getAndDecompressObject g "group-overview.md" w e = (Ok content, e))
    as Hget.
  { unfold getAndDecompressObject, bind, ask, lift, ret.
    rewrite Hobject. cbv beta iota.
    destruct (bool_decide _); by rewrite ?Hcontent. }
  unfold S3Source_getInfo, tryCatch, S3Source_getInfo_try, bind.
  rewrite (listObjects_Ok this g w e pages Hpages). split.
  - intros Haccepted.
    destruct (JS.includes (concat pages) "group-logo.png");
      unfold ask, ret; cbv beta iota; rewrite Hin, Hget;
      by rewrite (parseOverviewMarkdown_accepted content fm w e Hfm Haccepted).
  - intros Hrefused.
    destruct (parseOverviewMarkdown_refused content fm w e Hfm Hrefused)
      as [err Herr].
    exists err.
    destruct (JS.includes (concat pages) "group-logo.png");
      unfold ask, ret; cbv beta iota; by rewrite Hin, Hget, Herr.
Qed.

Lemma group_info_with_overview_witness :
  getInfo (PublicGroupSource Fixtures.blab) Samples.customised noEffects
  = (Ok {| title := VString "Bedford lab";
           byline := VUndefined;
           website := VString "https://bedford.io";
           showDatasets := VBool false;
           showNarratives := VBool true;
           avatar :=
             Some "https://nextstrain-blab.s3.amazonaws.com/group-logo.png?operation=getObject";
           overview := Some "Welcome.";
           error := None |}, noEffects).
Proof.
  apply (proj1 (group_info_with_overview Samples.customised
                  (PublicGroupSource Fixtures.blab) Fixtures.blab noEffects
                  [["group-logo.png"; "zika.json"]; ["group-overview.md"]]
                  {| Body := "gz:group-overview.md";
                     ContentEncoding := Some "gzip" |}
                  "group-overview.md" Samples.overviewFrontMatter
                  (or_introl eq_refl) eq_refl
                  ltac:(vm_compute; do 2 apply list_elem_of_further;
                        apply list_elem_of_here)
                  eq_refl eq_refl eq_refl)).
  repeat split; discriminate.
Defined.

(** ** More on access control *)

(** X21. Visibility depends on membership only: a source that is not a
    private group is visible to everyone, a private group is hidden from an
    absent principal, and a principal who sees a source still sees it with
    any larger list of groups. *)
Theorem visibility_by_membership (s : Source) :
  (visibleToUser s None = true <-> forall g, s <> PrivateGroupSource g)
  /\ (forall u u' gs gs',
        groups u = Some gs -> groups u' = Some gs' -> gs ⊆ gs' ->
        visibleToUser s (Some u) = true -> visibleToUser s (Some u') = true).
Proof.
  split.
  - destruct s; simpl; split; try done.
    intros Hno. by destruct (Hno g).
  - intros u u' gs gs' Hu Hu' Hsub.
    destruct s; simpl; try done.
    unfold PrivateGroupSource_visibleToUser. rewrite Hu, Hu'.
    rewrite !includes_elem_of. apply Hsub.
Qed.

Lemma visibility_by_membership_witness :
  visibleToUser (PrivateGroupSource Fixtures.blab)
    (Some {| groups := Some ["seattleflu"; "blab"] |}) = true.
Proof.
  apply (proj2 (visibility_by_membership (PrivateGroupSource Fixtures.blab))
           {| groups := Some ["blab"] |}
           {| groups := Some ["seattleflu"; "blab"] |}
           ["blab"] ["seattleflu"; "blab"] eq_refl eq_refl).
  - intros x Hx. apply list_elem_of_singleton in Hx. subst x.
    apply list_elem_of_further, list_elem_of_here.
  - reflexivity.
Defined.

(** ** More on community sources *)

Section CommunityConstructor.

Lemma truthy_iff (s : string) : JS.truthy s = true <-> s <> "".
Proof. unfold JS.truthy. by destruct s. Qed.

(** The first piece of a split is empty exactly for the empty string and
    for a string that starts with the separator. *)
Lemma split_first (c : ascii) (s : string) :
  exists h t,
    JS.split c s = h :: t
    /\ (h = "" <-> s = "" \/ JS.startsWith s (String c "") = true).
Proof.
  destruct s as [|a s]; simpl.
  - exists "", []. split; [done|]. split; auto.
  - unfold JS.startsWith. simpl.
    destruct (Ascii.eqb a c) eqn:Hac.
    + apply Ascii.eqb_eq in Hac. subst a. exists "", (JS.split c s).
      split; [done|]. split; [|done]. intros _. right.
      destruct (ascii_dec c c); [by destruct s | done].
    + pose proof (split_nonempty c s).
      destruct (JS.split c s) as [|h t]; [done|].
      exists (String a h), t. split; [done|]. split; [done|].
      intros [?|Hpre]; [done|].
      destruct (ascii_dec c a) as [->|]; [|done].
      by rewrite Ascii.eqb_refl in Hac.
Qed.

(** The constructor on arguments that pass its checks. *)
Lemma new_CommunitySource_run (o r h : string) (t : list string)
    (w : World) (e : Effects) :
  o <> "" -> JS.split "@" r = h :: t -> h <> "" ->
  let explicit := from_option JS.truthy false (t !! 0) in
  new_CommunitySource o r w e
  = (Ok (CommunitySource
           {| owner := o;
              repoName := h;
              branch := if explicit then t !! 0 else lookedUpBranch w o h;
              branchExplicitlyDefined := explicit;
              defaultBranch := lookedUpBranch w o h |}),
     issue (repositoryRequest o h) e).
Proof.
  intros Ho%truthy_iff Hsplit Hh%truthy_iff explicit.
  assert (JS.truthy r = true) as Hr.
  { apply truthy_iff. intros ->. simpl in Hsplit. injection Hsplit as <- _.
    by apply truthy_iff in Hh. }
  unfold new_CommunitySource. rewrite Ho, Hr, Hsplit. cbn [negb].
  assert (take 2 (h :: t) !! 0 = Some h) as -> by done.
  assert (take 2 (h :: t) !! 1 = t !! 0) as -> by (by destruct t).
  change (default "" (Some h)) with h. rewrite Hh. cbn [negb].
  unfold bind, tryCatch, fetch, ret, throw, lookedUpBranch, repositoryRequest,
    issue.
  fold explicit.
  destruct (fetch_response w _) as [res|err]; [|done].
  by destruct (json res) as [[files|b]|].
Qed.

End CommunityConstructor.

(** The effects of a refused construction. *)
Lemma new_CommunitySource_throws_quietly (o r : string) (w : World)
    (e e' : Effects) (err : Error) :
  new_CommunitySource o r w e = (Err err, e') -> e' = e.
Proof.
  destruct (split_first "@" r) as (h & t & Hsplit & Hh).
  destruct (decide (o = "")) as [->|Ho]; [by intros [= _ <-]|].
  destruct (decide (h = "")) as [->|Hne].
  - unfold new_CommunitySource.
    destruct (JS.truthy o); cbn [negb]; [|by intros [= _ <-]].
    destruct (JS.truthy r); cbn [negb]; [|by intros [= _ <-]].
    rewrite Hsplit. by intros [= _ <-].
  - by rewrite (new_CommunitySource_run o r h t w e Ho Hsplit Hne).
Qed.

(** X22. The constructor of a community source throws exactly when the
    owner is empty, the repository argument is empty or the argument starts
    with [@]; it throws before any request is sent. *)
Theorem new_CommunitySource_throws_iff (o r : string) (w : World)
    (e : Effects) :
  ((exists err, new_CommunitySource o r w e = (Err err, e))
   <-> (o = "" \/ r = "" \/ JS.startsWith r "@" = true))
  /\ (forall err e', new_CommunitySource o r w e = (Err err, e') -> e' = e).
Proof.
  split;
    [|intros err e' H; by apply (new_CommunitySource_throws_quietly o r w e e' err)].
  destruct (split_first "@" r) as (h & t & Hsplit & Hh).
  split.
  - intros [err Herr].
    destruct (decide (o = "")) as [|Ho]; [by left|]. right.
    apply Hh. destruct (decide (h = "")) as [|Hne]; [done|].
    by rewrite (new_CommunitySource_run o r h t w e Ho Hsplit Hne) in Herr.
  - intros Hbad. unfold new_CommunitySource.
    destruct (JS.truthy o) eqn:Ho; cbn [negb]; [|eauto].
    destruct (JS.truthy r) eqn:Hr; cbn [negb]; [|eauto].
    apply truthy_iff in Ho, Hr.
    destruct Hbad as [?|Hbad]; [done|].
    rewrite Hsplit.
    assert (take 2 (h :: t) !! 0 = Some h) as -> by done.
    change (default "" (Some h)) with h. rewrite (proj2 Hh Hbad). simpl. eauto.
Qed.

(** X23. For arguments that pass its checks the constructor cannot fail.
    It sends the one request for the repository named before [@]; when that
    request fails or its body does not parse, the default branch is
    [master]; a non-empty branch after [@] becomes the branch and marks it
    as explicitly defined, and without one the branch is the default branch
    and is not marked. *)
Theorem new_CommunitySource_settles (o r : string) (w : World) (e : Effects) :
  o <> "" -> r <> "" -> JS.startsWith r "@" = false ->
  exists c,
    new_CommunitySource o r w e
    = (Ok (CommunitySource c),
       issue (repositoryRequest o (repoName c)) e)
    /\ owner c = o
    /\ JS.split "@" r !! 0 = Some (repoName c)
    /\ repoName c <> ""
    /\ defaultBranch c = lookedUpBranch w o (repoName c)
    /\ ((forall res, fetch_response w (repositoryRequest o (repoName c))
                     = Ok res -> json res = None) ->
        defaultBranch c = Some "master")
    /\ (forall b, JS.split "@" r !! 1 = Some b -> b <> "" ->
                  branch c = Some b /\ branchExplicitlyDefined c = true)
    /\ ((forall b, JS.split "@" r !! 1 = Some b -> b = "") ->
        branch c = defaultBranch c /\ branchExplicitlyDefined c = false).
Proof.
  intros Ho Hr Hat.
  destruct (split_first "@" r) as (h & t & Hsplit & Hh).
  assert (h <> "") as Hne.
  { intros Hempty. apply Hh in Hempty as [?|Hpre]; [done | congruence]. }
  exists {| owner := o;
            repoName := h;
            branch := if from_option JS.truthy false (t !! 0)
                      then t !! 0 else lookedUpBranch w o h;
            branchExplicitlyDefined := from_option JS.truthy false (t !! 0);
            defaultBranch := lookedUpBranch w o h |}.
  split; [apply (new_CommunitySource_run o r h t w e Ho Hsplit Hne)|].
  rewrite Hsplit. simpl.
  split; [done|]. split; [done|]. split; [done|]. split; [done|]. split.
  - intros Hfail. unfold lookedUpBranch.
    destruct (fetch_response w _) as [res|] eqn:Hres; [|done].
    by rewrite (Hfail res eq_refl).
  - split.
    + intros b Hb Hnonempty%truthy_iff. rewrite Hb. simpl.
      by rewrite Hnonempty.
    + intros Hnone.
      destruct (t !! 0) as [b|]; simpl; [|done].
      by rewrite (Hnone b eq_refl).
Qed.

Lemma new_CommunitySource_settles_witness :
  exists c,
    new_CommunitySource "nextstrain" "community-test@alt"
      (Fixtures.world (fun _ => Err (GenericError "offline")) []) noEffects
    = (Ok (CommunitySource c),
       issue (repositoryRequest "nextstrain" (repoName c)) noEffects)
    /\ owner c = "nextstrain"
    /\ JS.split "@" "community-test@alt" !! 0 = Some (repoName c)
    /\ repoName c <> ""
    /\ defaultBranch c
       = lookedUpBranch
           (Fixtures.world (fun _ => Err (GenericError "offline")) [])
           "nextstrain" (repoName c)
    /\ ((forall res,
            fetch_response
              (Fixtures.world (fun _ => Err (GenericError "offline")) [])
              (repositoryRequest "nextstrain" (repoName c)) = Ok res ->
            json res = None) ->
        defaultBranch c = Some "master")
    /\ (forall b, JS.split "@" "community-test@alt" !! 1 = Some b -> b <> "" ->
                  branch c = Some b /\ branchExplicitlyDefined c = true)
    /\ ((forall b, JS.split "@" "community-test@alt" !! 1 = Some b -> b = "") ->
        branch c = defaultBranch c /\ branchExplicitlyDefined c = false).
Proof.
  apply (new_CommunitySource_settles "nextstrain" "community-test@alt"
           (Fixtures.world (fun _ => Err (GenericError "offline")) [])
           noEffects); [discriminate | discriminate | reflexivity].
Defined.

(** X24. [repoNameWithBranch()] is read back by the constructor: building a
    community source from the owner and the name-with-branch of a source the
    constructor built gives the same source again. *)
Theorem repoNameWithBranch_round_trip (o r : string) (w : World)
    (e e' : Effects) (c : Community) :
  new_CommunitySource o r w e = (Ok (CommunitySource c), e') ->
  new_CommunitySource o (repoNameWithBranch c) w e
  = (Ok (CommunitySource c), e').
Proof.
  intros Hnew.
  destruct (split_first "@" r) as (h & t & Hsplit & Hh).
  assert (o <> "") as Ho.
  { intros ->. unfold new_CommunitySource in Hnew. by simpl in Hnew. }
  assert (h <> "") as Hne.
  { intros ->. unfold new_CommunitySource in Hnew.
    destruct (JS.truthy o); cbn [negb] in Hnew; [|done].
    destruct (JS.truthy r); cbn [negb] in Hnew; [|done].
    rewrite Hsplit in Hnew. by simpl in Hnew. }
  rewrite (new_CommunitySource_run o r h t w e Ho Hsplit Hne) in Hnew.
  injection Hnew as <- <-.
  assert (JS.split "@" h = [h]) as Hh1.
  { apply (split_piece "@" r). rewrite Hsplit. apply list_elem_of_here. }
  unfold repoNameWithBranch. simpl.
  destruct (t !! 0) as [b|] eqn:Hb; simpl.
  - destruct (JS.truthy b) eqn:Htruthy; simpl.
    + rewrite andb_false_r.
      assert (JS.split "@" b = [b]) as Hb1.
      { apply (split_piece "@" r). rewrite Hsplit.
        apply list_elem_of_further. destruct t as [|b' t']; [done|].
        injection Hb as ->. apply list_elem_of_here. }
      assert (JS.split "@" (h +:+ "@" +:+ b) = [h; b]) as Hsplit'.
      { change ("@" +:+ b) with (String "@" b).
        rewrite (split_append "@" h b Hh1). by rewrite Hb1. }
      rewrite (new_CommunitySource_run o _ h [b] w e Ho Hsplit' Hne).
      simpl. by rewrite Htruthy.
    + rewrite andb_true_r, bool_decide_eq_true_2 by done.
      rewrite (new_CommunitySource_run o h h [] w e Ho Hh1 Hne). done.
  - rewrite andb_true_r, bool_decide_eq_true_2 by done.
    rewrite (new_CommunitySource_run o h h [] w e Ho Hh1 Hne). done.
Qed.

Lemma repoNameWithBranch_round_trip_witness :
  new_CommunitySource "nextstrain"
    (repoNameWithBranch
       {| owner := "nextstrain"; repoName := "community-test";
          branch := Some "alt"; branchExplicitlyDefined := true;
          defaultBranch := Some "master" |})
    (Fixtures.world (fun _ => Err (GenericError "offline")) []) noEffects
  = (Ok (CommunitySource
           {| owner := "nextstrain"; repoName := "community-test";
              branch := Some "alt"; branchExplicitlyDefined := true;
              defaultBranch := Some "master" |}),
     issue (repositoryRequest "nextstrain" "community-test") noEffects).
Proof.
  apply (repoNameWithBranch_round_trip "nextstrain" "community-test@alt"
           (Fixtures.world (fun _ => Err (GenericError "offline")) [])
           noEffects).
  reflexivity.
Defined.

(** X25. Every path [availableDatasets()] of a core source lists is
    canonical: a dataset of that source with this joined path resolves to
    itself. *)
Theorem listed_datasets_are_canonical (av : AvailableDatasets) (w : World)
    (s : Source) (e e' : Effects) (listed : list string) (this : Resource)
    (n : nat) :
  s = CoreSource \/ s = CoreStagingSource ->
  availableDatasets av s w e = (Ok listed, e') ->
  source this = s ->
  JS.join "/" (pathParts this) ∈ listed ->
  resolve (S n) av this = Some (Ok this).
Proof.
  intros Hs Hlisted Hsource Hin. simpl. rewrite Hsource.
  assert (listed = default [] (paths av !! name s)) as ->.
  { destruct Hs as [-> | ->]; simpl in Hlisted; unfold ret in Hlisted;
      by injection Hlisted as <- _. }
  destruct (paths av !! name s) as [known|]; [|done]. simpl in Hin.
  apply includes_elem_of in Hin. by rewrite Hin.
Qed.

Lemma listed_datasets_are_canonical_witness :
  resolve 1 Fixtures.fluCache Fixtures.zika = Some (Ok Fixtures.zika).
Proof.
  apply (listed_datasets_are_canonical Fixtures.fluCache
           (Fixtures.world (Fixtures.answerAll 200) []) CoreSource
           noEffects noEffects ["flu/seasonal/h3n2/ha/2y"; "zika"]
           Fixtures.zika 0).
  - left. reflexivity.
  - vm_compute. reflexivity.
  - reflexivity.
  - vm_compute. apply list_elem_of_further, list_elem_of_here.
Defined.

(** ** The registry *)

Section Registry.

Lemma sourceMapOf_snoc (classes : list SourceClass) (cls : SourceClass) :
  sourceMapOf (classes ++ [cls]) = <[_name cls := cls]> (sourceMapOf classes).
Proof. unfold sourceMapOf. by rewrite foldl_app. Qed.

(** Without two classes of one name, the map holds each class under its
    name and nothing else. *)
Lemma sourceMapOf_lookup (classes : list SourceClass) :
  NoDup (_name <$> classes) ->
  forall n cls,
    sourceMapOf classes !! n = Some cls <-> cls ∈ classes /\ _name cls = n.
Proof.
  induction classes as [|last classes IH] using rev_ind; intros Hnodup n cls.
  - unfold sourceMapOf. simpl. rewrite lookup_empty. split; [done|].
    intros [Hin _]. by apply elem_of_nil in Hin.
  - rewrite fmap_app in Hnodup. apply NoDup_app in Hnodup as (Hnd & Hfresh & _).
    rewrite sourceMapOf_snoc, elem_of_app, list_elem_of_singleton.
    destruct (decide (_name last = n)) as [<-|Hne].
    + rewrite lookup_insert_eq. split.
      * intros [= <-]. auto.
      * intros [[Hin | ->] Hname]; [|done].
        exfalso. apply (Hfresh (_name last)).
        -- rewrite <- Hname. apply list_elem_of_fmap. eauto.
        -- simpl. apply list_elem_of_here.
    + rewrite lookup_insert_ne by done. rewrite (IH Hnd). split.
      * intros [? ?]. auto.
      * intros [[Hin | ->] Hname]; [done | congruence].
Qed.

End Registry.

(** X26. No two registered classes share a name and no two registered
    groups share a bucket; hence the registry holds every class of
    [sources] under its own name, and nothing else. *)
Theorem registry_by_name :
  NoDup (_name <$> sources)
  /\ NoDup (bucket <$> publicGroups ++ privateGroups)
  /\ size sourceMap = length sources
  /\ (forall n cls,
        sourceMap !! n = Some cls <-> cls ∈ sources /\ _name cls = n).
Proof.
  assert (NoDup (_name <$> sources)) as Hnames.
  { apply (bool_decide_unpack _). vm_compute. reflexivity. }
  split; [done|]. split.
  { apply (bool_decide_unpack _). vm_compute. reflexivity. }
  split; [vm_compute; reflexivity|].
  by apply sourceMapOf_lookup.
Qed.

(** ** The page of a group *)

(** X27. The rows of the group page: one row per listed entry, in order;
    the link of a row is the request behind a slash; for a request below the
    group the file name is the path below the group, and below
    [narratives/] for a narrative. *)
Theorem createDatasetListing_rows (list_ : list Available)
    (groupName : string) :
  length (createDatasetListing list_ groupName) = length list_
  /\ (forall i d row,
        list_ !! i = Some d ->
        createDatasetListing list_ groupName !! i = Some row ->
        row_url row = "/" +:+ request d
        /\ row_contributor row = groupName
        /\ (forall path,
              request d = "groups/" +:+ groupName +:+ "/" +:+ path ->
              row_filename row = JS.removeFirst "narratives/" path)
        /\ (forall path,
              request d
              = "groups/" +:+ groupName +:+ "/" +:+ "narratives/" +:+ path ->
              row_filename row = path)).
Proof.
  unfold createDatasetListing. split; [apply length_map|].
  intros i d row Hd Hrow.
  rewrite list_lookup_fmap, Hd in Hrow. injection Hrow as <-. simpl.
  split; [done|]. split; [done|]. split.
  - intros path ->.
    replace ("groups/" +:+ groupName +:+ "/" +:+ path)
      with (("groups/" +:+ groupName +:+ "/") +:+ path)
      by (by rewrite !append_assoc).
    by rewrite removeFirst_prefix.
  - intros path ->.
    replace ("groups/" +:+ groupName +:+ "/" +:+ "narratives/" +:+ path)
      with (("groups/" +:+ groupName +:+ "/") +:+ "narratives/" +:+ path)
      by (by rewrite !append_assoc).
    by rewrite !removeFirst_prefix.
Qed.

Lemma createDatasetListing_rows_witness :
  row_filename
    {| row_filename := "test/fixture";
       row_url := "/groups/blab/narratives/test/fixture";
       row_contributor := "blab" |}
  = "test/fixture".
Proof.
  apply (proj2 (proj2 (proj2
           (proj2 (createDatasetListing_rows
                     [ {| request := "groups/blab/ncov/19B" |};
                       {| request := "groups/blab/narratives/test/fixture" |} ]
                     "blab")
              1 {| request := "groups/blab/narratives/test/fixture" |}
              {| row_filename := "test/fixture";
                 row_url := "/groups/blab/narratives/test/fixture";
                 row_contributor := "blab" |}
              eq_refl eq_refl)))
           "test/fixture").
  reflexivity.
Defined.

(** ** More on URLs and listings *)

(** X28. The files of a private group are reached through signed URLs only:
    the URL of a subresource is signed for its file name in the bucket of the
    group, for [headObject] when the method is HEAD and for [getObject]
    otherwise; so [exists()] asks with URLs signed for [headObject]. *)
Theorem private_group_urls_signed (w : World) (g : Group) (r : Resource)
    (ty : string) (sub : Subresource) (method : Method) :
  source r = PrivateGroupSource g ->
  subresource r ty = Ok sub ->
  run w (url sub method)
  = (Ok (getSignedUrl w
           (match method with HEAD => "headObject" | GET => "getObject" end)
           (bucket g) (Subresource_baseName sub)), noEffects)
  /\ headRequest w r ty
     = Some {| req_url := getSignedUrl w "headObject" (bucket g)
                            (Subresource_baseName sub);
               req_method := HEAD |}.
Proof.
  intros Hsource Hsub.
  assert (resource sub = r) as Hres.
  { unfold subresource in Hsub.
    destruct (class r); apply new_Subresource_shape in Hsub; by subst sub. }
  assert (forall m,
             run w (url sub m)
             = (Ok (getSignedUrl w
                      (match m with HEAD => "headObject" | GET => "getObject" end)
                      (bucket g) (Subresource_baseName sub)), noEffects))
    as Hurl.
  { intros m. unfold run, url. by rewrite Hres, Hsource. }
  split; [apply Hurl|].
  unfold headRequest. by rewrite Hsub, Hurl.
Qed.

Lemma private_group_urls_signed_witness :
  run (Fixtures.world (Fixtures.answerAll 200) [])
      (url Samples.privateZikaMeta HEAD)
  = (Ok (getSignedUrl (Fixtures.world (Fixtures.answerAll 200) [])
           "headObject" (bucket Fixtures.blab)
           (Subresource_baseName Samples.privateZikaMeta)), noEffects)
  /\ headRequest (Fixtures.world (Fixtures.answerAll 200) [])
       Samples.privateZika "meta"
     = Some {| req_url :=
                 getSignedUrl (Fixtures.world (Fixtures.answerAll 200) [])
                   "headObject" (bucket Fixtures.blab)
                   (Subresource_baseName Samples.privateZikaMeta);
               req_method := HEAD |}.
Proof.
  apply (private_group_urls_signed (Fixtures.world (Fixtures.answerAll 200) [])
           Fixtures.blab Samples.privateZika "meta" Samples.privateZikaMeta
           HEAD); reflexivity.
Defined.

(** X29. Among the datasets the factories build, exactly those without
    path segments report [isRequestValidWithoutDataset]; they belong to
    community sources. *)
Theorem valid_without_dataset (s : Source) (parts : list string)
    (r : Resource) :
  dataset s parts = Ok r ->
  (isRequestValidWithoutDataset r = true <-> parts = [])
  /\ (parts = [] -> exists c, s = CommunitySource c).
Proof.
  intros Hr. split.
  - destruct s as [| |c|authority|g|g]; simpl in Hr;
      pose proof (new_Resource_Ok _ _ _ _ Hr) as ->;
      unfold isRequestValidWithoutDataset; simpl;
      try (split; [done|]; intros ->; discriminate).
    by destruct parts.
  - intros ->. destruct s as [| |c|authority|g|g]; try discriminate. eauto.
Qed.

Lemma valid_without_dataset_witness :
  (isRequestValidWithoutDataset Samples.communityRoot = true
   <-> @nil string = [])
  /\ (@nil string = [] ->
      exists c, CommunitySource Fixtures.communityTest = CommunitySource c).
Proof.
  apply (valid_without_dataset (CommunitySource Fixtures.communityTest) []
           Samples.communityRoot).
  reflexivity.
Defined.

(** X30. A contents listing answered with 200 or with 304 is read alike:
    [availableNarratives()] of a core source lists, for the entries that are
    files, end in [.md] and are not [README.md], the name without the
    extension and with every underscore as a path separator, and nothing is
    logged. *)
Theorem core_narratives_listed (w : World) (av : AvailableDatasets)
    (staging : bool) (e : Effects) (response : Response)
    (files : list ContentsEntry) :
  fetch_response w (listingRequest w (CoreNarratives staging)) = Ok response ->
  status response = 200%Z \/ status response = 304%Z ->
  json response = Some (JListing files) ->
  exists listed,
    runListing av (CoreNarratives staging) w e
    = (Ok listed, issue (listingRequest w (CoreNarratives staging)) e)
    /\ forall p,
        p ∈ listed
        <-> exists file,
              file ∈ files
              /\ entry_type file = "file"
              /\ entry_name file <> "README.md"
              /\ JS.endsWith (entry_name file) ".md" = true
              /\ p = narrativePath (entry_name file).
Proof.
  intros Hanswer Hstatus Hjson.
  assert (Z.eqb (status response) 404 = false) as H404
    by (destruct Hstatus as [-> | ->]; reflexivity).
  assert (isSuccess response = true) as Hok
    by (unfold isSuccess; destruct Hstatus as [-> | ->]; reflexivity).
  eexists. split.
  - destruct staging; simpl in *;
      unfold CoreSource_availableNarratives, bind, ask, fetch, listingOf;
      simpl; rewrite Hanswer, H404, Hok, Hjson; reflexivity.
  - intros p. rewrite list_elem_of_In, in_map_iff. split.
    + intros (file & <- & Hin).
      apply filter_In in Hin as (Hin & Hmd).
      apply filter_In in Hin as (Hin & Hreadme%negb_true_iff).
      apply filter_In in Hin as (Hin & Hfile).
      exists file. rewrite list_elem_of_In.
      repeat split; [done | by apply String.eqb_eq | | done].
      by apply String.eqb_neq.
    + intros (file & Hin & Hfile & Hreadme & Hmd & ->).
      exists file. split; [done|].
      rewrite !filter_In. rewrite <- list_elem_of_In.
      repeat split; [done | | | done].
      * unfold isFile. by apply String.eqb_eq.
      * apply negb_true_iff. by apply String.eqb_neq.
Qed.

Lemma core_narratives_listed_witness :
  exists listed,
    runListing Fixtures.fluCache (CoreNarratives false)
      (Fixtures.world
         (fun _ => Ok {| status := 304;
                         json := Some (JListing
                           [ {| entry_name := "README.md";
                                entry_type := "file" |};
                             {| entry_name := "ncov_sit-rep_2020-08-14.md";
                                entry_type := "file" |} ]) |}) [])
      noEffects
    = (Ok listed,
       issue (listingRequest
                (Fixtures.world
                   (fun _ => Ok {| status := 304;
                                   json := Some (JListing
                                     [ {| entry_name := "README.md";
                                          entry_type := "file" |};
                                       {| entry_name := "ncov_sit-rep_2020-08-14.md";
                                          entry_type := "file" |} ]) |}) [])
                (CoreNarratives false)) noEffects)
    /\ forall p,
        p ∈ listed
        <-> exists file,
              file ∈ [ {| entry_name := "README.md"; entry_type := "file" |};
                       {| entry_name := "ncov_sit-rep_2020-08-14.md";
                          entry_type := "file" |} ]
              /\ entry_type file = "file"
              /\ entry_name file <> "README.md"
              /\ JS.endsWith (entry_name file) ".md" = true
              /\ p = narrativePath (entry_name file).
Proof.
  apply (core_narratives_listed _ Fixtures.fluCache false noEffects
           {| status := 304;
              json := Some (JListing
                [ {| entry_name := "README.md"; entry_type := "file" |};
                  {| entry_name := "ncov_sit-rep_2020-08-14.md";
                     entry_type := "file" |} ]) |}).
  - reflexivity.
  - right. reflexivity.
  - reflexivity.
Defined.
